(** * My_Shell.c: a shallow embedding of the mini shell and its pipeline engine

    The development follows the source file top-down: the C library
    routines the shell relies on ([strtok], descriptor tables, [open],
    [dup2], [close], [pipe], [fork], [wait]), then [parse_args],
    [handle_redirection], [execute_pipeline] and one iteration of
    [shell_loop].  Every process is a state-passing function over its
    kernel-visible state; everything a process asks of the kernel or of libc
    is appended to its log, so that orderings and counts can be stated on the
    log. *)

From Stdlib Require Import ZArith Ascii String.
From stdpp Require Import gmap strings list fin_maps.

Local Open Scope string_scope.
Local Open Scope list_scope.

(** ** C strings and [strtok] *)

(** A [char *]: [None] is the NULL pointer, [Some s] points at the
    NUL-terminated text [s]. *)
Abbreviation ptr := (option string).

(** [strchr(delim, c) != NULL] for a character [c] of the scanned text. *)
Definition is_delim (delim : string) (c : ascii) : bool :=
  existsb (Ascii.eqb c) (list_ascii_of_string delim).

(** [s + strspn(s, delim)]: the text after the leading delimiters. *)
Fixpoint strspn_drop (delim s : string) : string :=
  match s with
  | EmptyString => EmptyString
  | String c s' => if is_delim delim c then strspn_drop delim s' else s
  end.

(** The span [strcspn(s, delim)] of [s] up to its first delimiter, and the
    text after that delimiter ([None] when the end of [s] was reached
    first). *)
Fixpoint strcspn_split (delim s : string) : string * option string :=
  match s with
  | EmptyString => (EmptyString, None)
  | String c s' =>
      if is_delim delim c then (EmptyString, Some s')
      else let '(t, r) := strcspn_split delim s' in (String c t, r)
  end.

(** [strtok(s, delim)], with the hidden save pointer made explicit: the
    token returned and the new save pointer.  A NULL [s] resumes at the save
    pointer; at the end of the text the save pointer stays on the
    terminating NUL. *)
Definition strtok (s : ptr) (delim : string) (save : string) : ptr * string :=
  let s0 := match s with Some x => x | None => save end in
  match strspn_drop delim s0 with
  | EmptyString => (None, EmptyString)
  | s1 =>
      let '(t, r) := strcspn_split delim s1 in
      (Some t, match r with Some r' => r' | None => EmptyString end)
  end.

(** The reading of "the tokens of a line" used in the statements below:
    cut the text at every delimiter and keep the non-empty fields. *)
Fixpoint fields (delim s : string) : list string :=
  match s with
  | EmptyString => [EmptyString]
  | String c s' =>
      if is_delim delim c then EmptyString :: fields delim s'
      else match fields delim s' with
           | f :: fs => String c f :: fs
           | [] => [String c EmptyString]
           end
  end.

Definition nonempty (s : string) : bool :=
  match s with EmptyString => false | String _ _ => true end.

Definition tokens (delim s : string) : list string :=
  List.filter nonempty (fields delim s).

(** ** parse_args *)

Definition MAX_INPUT : nat := 1024.
Definition MAX_ARGS : nat := 128.
Definition MAX_HISTORY : nat := 1000.

(** The loop of [parse_args].  [cur] is [args[i]], [n] is [MAX_ARGS-1 - i],
    so the guard [i < MAX_ARGS-1] reads [n <> 0]; [args] holds the cells
    [args[0..i]] written so far, and [args[++i] = ...] appends the next
    cell. *)
Fixpoint parse_args_loop (n : nat) (cur : ptr) (save : string)
    (args : list ptr) : list ptr * string :=
  match cur, n with
  | Some _, S n' =>
      let '(t, save') := strtok None " " save in
      parse_args_loop n' t save' (args ++ [t])
  | _, _ => (args, save)
  end.

(** [parse_args(line, args)].  The result lists the cells of [args] that
    were written, in index order: cell [k] of the list is [args[k]].  Cells
    of the C array beyond the list were never written and hold whatever the
    stack held. *)
Definition parse_args (line : ptr) (save : string) : list ptr * string :=
  let '(t, save') := strtok line " " save in
  parse_args_loop (MAX_ARGS - 1) t save' [t].

(** ** Faults

    What C leaves undefined is reported as a fault instead of being given a
    meaning. *)
Inductive fault :=
| OutOfBounds      (* an array cell outside the written part of an array *)
| NullDeref        (* a NULL pointer handed to a routine that reads through it *)
| BufferOverflow.  (* a string written past the end of its buffer *)

Inductive res (A : Type) :=
| Ok (a : A)
| Fault (f : fault).
Arguments Ok {A} a.
Arguments Fault {A} f.

Definition res_bind {A B : Type} (m : res A) (k : A -> res B) : res B :=
  match m with Ok a => k a | Fault f => Fault f end.

Notation "'let?' x := m 'in' k" := (res_bind m (fun x => k))
  (at level 10, x pattern, m at level 100, k at level 200).

(** ** The kernel as seen from one process *)

Inductive oflag := O_RDONLY | O_WRONLY | O_CREAT | O_TRUNC | O_APPEND.

(** What a descriptor refers to. *)
Inductive fdesc :=
| Inherited (n : nat)                      (* what the shell was started with on descriptor n *)
| PipeRead (k : nat)                       (* read end of the k-th pipe *)
| PipeWrite (k : nat)                      (* write end of the k-th pipe *)
| File (path : string) (flags : list oflag).

#[global] Instance oflag_eq_dec : EqDecision oflag.
Proof. solve_decision. Defined.
#[global] Instance fdesc_eq_dec : EqDecision fdesc.
Proof. solve_decision. Defined.

(** How a forked child ends up: running the program it was asked to run,
    terminated by [exit], or killed by a fault. *)
Inductive fate :=
| Runs (file : string) (argv : list string) (tbl : gmap nat fdesc)
| Exits (code : Z)
| Faults (f : fault).

#[local] Set Warnings "-register-all".

(** The calls a process makes, with their results.  [CFork] is what the
    parent sees of a fork: the child's pid, the command text the child was
    forked for (kept to make the log readable; it is not an argument of
    [fork]), the child's own log and its fate. *)
Inductive call :=
| CPipe (r w : nat)                         (* pipe(pipefd) = 0, pipefd = {r, w} *)
| CFork (pid : nat) (cmd : ptr) (child : list call) (outcome : fate)
| CWait (ret : Z)                           (* wait(NULL) = ret *)
| CWaitpid (pid ret : Z)                    (* waitpid(pid, NULL, 0) = ret *)
| CClose (fd ret : Z)                       (* close(fd) = ret *)
| CDup2 (oldfd newfd ret : Z)               (* dup2(oldfd, newfd) = ret *)
| COpen (path : ptr) (flags : list oflag) (mode : option nat) (ret : Z)
| CPerror (s : string)                      (* perror(s) *)
| CExecvp (file : string) (argv : list string)  (* an execvp that came back *)
| CGetenv (name : string)
| CSetenv (name value : string)             (* setenv(name, value, 1) *)
| CChdir (path : ptr) (ret : Z)
| CPrintf (n : nat) (s : string).           (* printf("%d %s\n", n, s) *)

(** The part of the machine the shell does not control: whether a file can
    be opened, a program started, a directory entered, and which terminated
    child a [wait] returns.  Each answer may depend on what the asking
    process has done so far. *)
Record world := World {
  open_ok : list call -> string -> list oflag -> bool;
  exec_ok : list call -> string -> list string -> bool;
  chdir_ok : list call -> string -> bool;
  wait_pick : list call -> nat
}.

Record proc := Proc {
  fds : gmap nat fdesc;       (* open descriptors *)
  children : list nat;        (* children forked and not yet waited for *)
  next_pid : nat;             (* the pid the next fork hands out *)
  next_pipe : nat;            (* the number of the next pipe *)
  env : gmap string string;   (* environment variables *)
  history : list string;      (* history[0..history_count-1] *)
  log : list call
}.

Definition with_fds (t : gmap nat fdesc) (p : proc) : proc :=
  Proc t (children p) (next_pid p) (next_pipe p) (env p) (history p) (log p).
Definition with_children (c : list nat) (p : proc) : proc :=
  Proc (fds p) c (next_pid p) (next_pipe p) (env p) (history p) (log p).
Definition with_env (e : gmap string string) (p : proc) : proc :=
  Proc (fds p) (children p) (next_pid p) (next_pipe p) e (history p) (log p).
Definition with_history (h : list string) (p : proc) : proc :=
  Proc (fds p) (children p) (next_pid p) (next_pipe p) (env p) h (log p).
Definition emit (c : call) (p : proc) : proc :=
  Proc (fds p) (children p) (next_pid p) (next_pipe p) (env p) (history p)
       (log p ++ [c]).

(** The descriptor an [int] names, if any. *)
Definition fd_get (fd : Z) (t : gmap nat fdesc) : option fdesc :=
  if (0 <=? fd)%Z then t !! Z.to_nat fd else None.

(** The lowest descriptor not in use, which is what [open] and [pipe]
    hand out. *)
Definition lowest_free (t : gmap nat fdesc) : nat :=
  default (size t)
    (List.find (fun n => bool_decide (t !! n = None)) (seq 0 (size t))).

(** [open(path, flags[, mode])]: a NULL path is refused by the kernel
    (EFAULT), otherwise the world decides. *)
Definition sys_open (W : world) (path : ptr) (flags : list oflag)
    (mode : option nat) (p : proc) : Z * proc :=
  match path with
  | None => ((-1)%Z, emit (COpen None flags mode (-1)) p)
  | Some f =>
      if open_ok W (log p) f flags then
        let fd := lowest_free (fds p) in
        (Z.of_nat fd,
         emit (COpen path flags mode (Z.of_nat fd))
              (with_fds (<[fd := File f flags]> (fds p)) p))
      else ((-1)%Z, emit (COpen path flags mode (-1)) p)
  end.

(** [dup2(oldfd, newfd)] for a valid [newfd]: fails on an [oldfd] that is
    not open, does nothing when both are the same, and otherwise makes
    [newfd] refer to what [oldfd] refers to. *)
Definition sys_dup2 (oldfd : Z) (newfd : nat) (p : proc) : proc :=
  match fd_get oldfd (fds p) with
  | None => emit (CDup2 oldfd (Z.of_nat newfd) (-1)) p
  | Some d =>
      emit (CDup2 oldfd (Z.of_nat newfd) (Z.of_nat newfd))
           (with_fds (<[newfd := d]> (fds p)) p)
  end.

(** [close(fd)]. *)
Definition sys_close (fd : Z) (p : proc) : proc :=
  match fd_get fd (fds p) with
  | None => emit (CClose fd (-1)) p
  | Some _ => emit (CClose fd 0) (with_fds (delete (Z.to_nat fd) (fds p)) p)
  end.

Definition sys_perror (s : string) (p : proc) : proc := emit (CPerror s) p.

(** [pipe(pipefd)], in a kernel that grants the pipe: the read end and the
    write end take the two lowest free descriptors. *)
Definition sys_pipe (p : proc) : nat * nat * proc :=
  let k := next_pipe p in
  let r := lowest_free (fds p) in
  let t1 := <[r := PipeRead k]> (fds p) in
  let w := lowest_free t1 in
  let t2 := <[w := PipeWrite k]> t1 in
  (r, w,
   emit (CPipe r w)
        (Proc t2 (children p) (next_pid p) (S k) (env p) (history p) (log p))).

(** [fork()], in a kernel that grants the process.  The child starts from a
    copy of the parent's descriptors and environment and runs [body]; the
    parent gets the child's pid and goes on. *)
Definition sys_fork (cmd : ptr) (body : proc -> fate * list call) (p : proc)
    : nat * proc :=
  let pid := next_pid p in
  let child :=
    Proc (fds p) [] (S pid) (next_pipe p) (env p) (history p) [] in
  let '(f, clog) := body child in
  (pid,
   emit (CFork pid cmd clog f)
        (Proc (fds p) (children p ++ [pid]) (S pid) (next_pipe p) (env p)
              (history p) (log p))).

(** [wait(NULL)] as far as it returns: with no child left it fails at
    once; otherwise it returns once some child has terminated, and the
    world picks which one.  A [wait] whose children never terminate does
    not return at all; [wait_or_block] below adds that case, and
    [execute_pipeline_blocking] follows the pipeline through it. *)
Definition sys_wait (W : world) (p : proc) : proc :=
  match children p with
  | [] => emit (CWait (-1)) p
  | c :: cs =>
      let k := wait_pick W (log p) mod length (c :: cs) in
      let pid := nth k (c :: cs) c in
      emit (CWait (Z.of_nat pid)) (with_children (delete k (c :: cs)) p)
  end.

(** [waitpid(pid, NULL, 0)]: returns once that child has terminated. *)
Definition sys_waitpid (pid : nat) (p : proc) : proc :=
  if bool_decide (pid ∈ children p) then
    emit (CWaitpid (Z.of_nat pid) (Z.of_nat pid))
         (with_children (List.filter (fun c => negb (Nat.eqb c pid)) (children p)) p)
  else emit (CWaitpid (Z.of_nat pid) (-1)) p.

(** ** handle_redirection *)

Definition mode_0644 : nat := 6 * 64 + 4 * 8 + 4.

(** The loop of [handle_redirection]: [n] bounds the cells still to visit.
    Reading a cell that [parse_args] did not write is a fault. *)
Fixpoint handle_redirection_loop (W : world) (n i : nat) (args : list ptr)
    (p : proc) : res (list ptr * proc) :=
  match n with
  | 0 => Fault OutOfBounds
  | S n' =>
      match args !! i with
      | None => Fault OutOfBounds
      | Some None => Ok (args, p)
      | Some (Some tok) =>
          if String.eqb tok ">" then
            match args !! (i + 1) with
            | None => Fault OutOfBounds
            | Some target =>
                let '(fd, p1) :=
                  sys_open W target [O_WRONLY; O_CREAT; O_TRUNC] (Some mode_0644) p in
                let p2 := sys_dup2 fd 1 p1 in
                let p3 := sys_close fd p2 in
                handle_redirection_loop W n' (S i) (<[i := None]> args) p3
            end
          else if String.eqb tok ">>" then
            match args !! (i + 1) with
            | None => Fault OutOfBounds
            | Some target =>
                let '(fd, p1) :=
                  sys_open W target [O_WRONLY; O_CREAT; O_APPEND] (Some mode_0644) p in
                let p2 := sys_dup2 fd 1 p1 in
                let p3 := sys_close fd p2 in
                handle_redirection_loop W n' (S i) (<[i := None]> args) p3
            end
          else if String.eqb tok "<" then
            match args !! (i + 1) with
            | None => Fault OutOfBounds
            | Some target =>
                let '(fd, p1) := sys_open W target [O_RDONLY] None p in
                let p1' := if (fd <? 0)%Z then sys_perror "open" p1 else p1 in
                let p2 := sys_dup2 fd 0 p1' in
                let p3 := sys_close fd p2 in
                handle_redirection_loop W n' (S i) (<[i := None]> args) p3
            end
          else handle_redirection_loop W n' (S i) args p
      end
  end.

(** [handle_redirection(args)]: the array after the call and the state of
    the calling process.  The loop visits at most the written cells and the
    one after them. *)
Definition handle_redirection (W : world) (args : list ptr) (p : proc)
    : res (list ptr * proc) :=
  handle_redirection_loop W (S (length args)) 0 args p.

(** The vector [execvp] reads from [args]: the cells up to the first NULL. *)
Fixpoint argv_of (args : list ptr) : res (list string) :=
  match args with
  | [] => Fault OutOfBounds
  | None :: _ => Ok []
  | Some a :: rest => let? v := argv_of rest in Ok (a :: v)
  end.

(** [execvp(args[0], args); perror("exec"); exit(1);] *)
Definition exec_or_exit (W : world) (args : list ptr) (p : proc)
    : fate * list call :=
  match args !! 0 with
  | None => (Faults OutOfBounds, log p)
  | Some None => (Faults NullDeref, log p)
  | Some (Some file) =>
      match argv_of args with
      | Fault f => (Faults f, log p)
      | Ok argv =>
          if exec_ok W (log p) file argv then (Runs file argv (fds p), log p)
          else (Exits 1, log (sys_perror "exec" (emit (CExecvp file argv) p)))
      end
  end.

(** [handle_redirection(args); execvp(args[0], args); perror("exec");
    exit(1);], the tail of every child. *)
Definition run_command (W : world) (args : list ptr) (p : proc)
    : fate * list call :=
  match handle_redirection W args p with
  | Fault f => (Faults f, log p)
  | Ok (args', p') => exec_or_exit W args' p'
  end.

(** ** execute_pipeline *)

(** [while ((commands[num_cmds++] = strtok(NULL, "|")) != NULL);] with [n]
    cells of [commands] still free.  [commands] has ten cells; storing into
    an eleventh is a fault.  The result lists [commands[0..num_cmds-1]], so
    that [num_cmds] is its length. *)
Fixpoint split_commands (n : nat) (save : string) (commands : list ptr)
    : res (list ptr * string) :=
  match n with
  | 0 => Fault OutOfBounds
  | S n' =>
      let '(t, save') := strtok None "|" save in
      match t with
      | None => Ok (commands ++ [None], save')
      | Some _ => split_commands n' save' (commands ++ [t])
      end
  end.

(** The child forked for [commands[i]] inside the loop. *)
Definition stage_child (W : world) (in_fd : Z) (r w : nat) (cmd : ptr)
    (save : string) (c : proc) : fate * list call :=
  let c1 := sys_dup2 in_fd 0 c in
  let c2 := sys_dup2 (Z.of_nat w) 1 c1 in
  let c3 := sys_close (Z.of_nat r) c2 in
  let '(args, _) := parse_args cmd save in
  run_command W args c3.

(** The [for] loop of [execute_pipeline] over [commands[0..num_cmds-2]]:
    for each of them a pipe, a fork, a wait, and the write end closed.
    Returns the final [in_fd]. *)
Fixpoint stage_loop (W : world) (cmds : list ptr) (save : string) (in_fd : Z)
    (p : proc) : Z * proc :=
  match cmds with
  | [] => (in_fd, p)
  | cmd :: rest =>
      let '(r, w, p1) := sys_pipe p in
      let '(_, p2) := sys_fork cmd (stage_child W in_fd r w cmd save) p1 in
      let p3 := sys_wait W p2 in
      let p4 := sys_close (Z.of_nat w) p3 in
      stage_loop W rest save (Z.of_nat r) p4
  end.

(** The child forked after the loop, for the command parsed by the parent. *)
Definition last_child (W : world) (in_fd : Z) (args : list ptr) (c : proc)
    : fate * list call :=
  run_command W args (sys_dup2 in_fd 0 c).

Definition execute_pipeline (W : world) (line : string) (p : proc) : res proc :=
  let '(c0, save0) := strtok (Some line) "|" EmptyString in
  let? (commands, save) := split_commands 9 save0 [c0] in
  let num_cmds := length commands in
  let '(in_fd, p1) := stage_loop W (take (num_cmds - 1) commands) save 0 p in
  match commands !! (num_cmds - 2) with
  | None => Fault OutOfBounds
  | Some cmd =>
      let '(args, _) := parse_args cmd save in
      let '(_, p2) := sys_fork cmd (last_child W in_fd args) p1 in
      Ok (sys_wait W p2)
  end.

(** ** The collaborators of the loop *)

Definition newline : string := String (ascii_of_nat 10) EmptyString.

(** [line[strcspn(line, "\n")] = 0] *)
Definition trim_newline (line : string) : string :=
  fst (strcspn_split newline line).

Definition add_history (line : string) (p : proc) : proc :=
  if decide (length (history p) < MAX_HISTORY)
  then with_history (history p ++ [line]) p
  else p.

(** [printf("%d %s\n", i + 1, history[i])] for [i] from [i0] on. *)
Fixpoint show_history_from (i : nat) (h : list string) (p : proc) : proc :=
  match h with
  | [] => p
  | l :: h' => show_history_from (S i) h' (emit (CPrintf (S i) l) p)
  end.

Definition show_history (p : proc) : proc := show_history_from 0 (history p) p.

(** [isalnum(c) || c == '_'] in the C locale. *)
Definition is_name_char (c : ascii) : bool :=
  let n := nat_of_ascii c in
  (((48 <=? n) && (n <=? 57)) || ((65 <=? n) && (n <=? 90))
   || ((97 <=? n) && (n <=? 122)) || (n =? 95))%nat.

(** [strcat(buffer, s)] into [char buffer[MAX_INPUT]]. *)
Definition buf_cat (buffer s : string) : res string :=
  if decide (String.length buffer + String.length s < MAX_INPUT)
  then Ok (String.append buffer s) else Fault BufferOverflow.

(** The end of a variable name: [var[k] = '\0'] into [char var[128]], then
    [getenv(var)] and the value, if any, appended to the buffer. *)
Definition expand_var (var buffer : string) (p : proc) : res (string * proc) :=
  if decide (String.length var < 128) then
    let p' := emit (CGetenv var) p in
    match env p !! var with
    | Some val => let? b := buf_cat buffer val in Ok (b, p')
    | None => Ok (buffer, p')
    end
  else Fault BufferOverflow.

Definition dollar : ascii := ascii_of_nat 36.

(** The scan of [expand_variables] over the rest of the line.  [var] is
    [Some v] while the inner loop is collecting the name [v] of a variable,
    [None] otherwise. *)
Fixpoint expand_scan (s : string) (var : option string) (buffer : string)
    (p : proc) : res (string * proc) :=
  match s with
  | EmptyString =>
      match var with
      | Some v => expand_var v buffer p
      | None => Ok (buffer, p)
      end
  | String c s' =>
      match var with
      | Some v =>
          if is_name_char c then expand_scan s' (Some (String.append v (String c EmptyString))) buffer p
          else
            let? (b, p') := expand_var v buffer p in
            if Ascii.eqb c dollar then expand_scan s' (Some EmptyString) b p'
            else let? b' := buf_cat b (String c EmptyString) in
                 expand_scan s' None b' p'
      | None =>
          if Ascii.eqb c dollar then expand_scan s' (Some EmptyString) buffer p
          else let? b' := buf_cat buffer (String c EmptyString) in
               expand_scan s' None b' p
      end
  end.

(** [expand_variables(line)]: the new contents of [line]. *)
Definition expand_variables (line : string) (p : proc) : res (string * proc) :=
  expand_scan line None EmptyString p.

(** How an iteration of the loop, or a built-in, leaves the shell. *)
Inductive control :=
| Next          (* back to the top of the loop *)
| Stop (code : Z). (* exit(code) *)

(** [chdir(path)]; the result is the return value. *)
Definition sys_chdir (W : world) (path : ptr) (p : proc) : Z * proc :=
  match path with
  | None => ((-1)%Z, emit (CChdir None (-1)) p)
  | Some d =>
      if chdir_ok W (log p) d then (0%Z, emit (CChdir path 0) p)
      else ((-1)%Z, emit (CChdir path (-1)) p)
  end.

(** [handle_builtin(args)]: [None] is the return value 0 (not a built-in),
    [Some] what a built-in did. *)
Definition handle_builtin (W : world) (args : list ptr) (p : proc)
    : res (option (control * proc)) :=
  match args !! 0 with
  | None => Fault OutOfBounds
  | Some None => Ok (Some (Next, p))
  | Some (Some a0) =>
      if String.eqb a0 "exit" then Ok (Some (Stop 0, p))
      else if String.eqb a0 "cd" then
        match args !! 1 with
        | None => Fault OutOfBounds
        | Some None =>
            let p1 := emit (CGetenv "HOME") p in
            let '(_, p2) := sys_chdir W (env p !! "HOME") p1 in
            Ok (Some (Next, p2))
        | Some (Some dir) =>
            let '(r, p1) := sys_chdir W (Some dir) p in
            Ok (Some (Next, if bool_decide (r = 0%Z) then p1 else sys_perror "cd" p1))
        end
      else if String.eqb a0 "history" then Ok (Some (Next, show_history p))
      else if String.eqb a0 "export" then
        match args !! 1 with
        | None => Fault OutOfBounds
        | Some None => Ok (Some (Next, p))
        | Some (Some kv) =>
            let '(key, save) := strtok (Some kv) "=" EmptyString in
            let '(val, _) := strtok None "=" save in
            match key, val with
            | Some k, Some v =>
                Ok (Some (Next, emit (CSetenv k v) (with_env (<[k := v]> (env p)) p)))
            | _, _ => Ok (Some (Next, p))
            end
        end
      else Ok None
  end.

(** [while (args[i]) i++;] *)
Fixpoint count_args (args : list ptr) : res nat :=
  match args with
  | [] => Fault OutOfBounds
  | None :: _ => Ok 0
  | Some _ :: rest => let? n := count_args rest in Ok (S n)
  end.

(** [strchr(line, c) != NULL] *)
Definition has_char (c : ascii) (line : string) : bool :=
  existsb (Ascii.eqb c) (list_ascii_of_string line).

Definition bar : ascii := ascii_of_nat 124.

(** The child of a command that is not a pipeline. *)
Definition simple_child (W : world) (args : list ptr) (c : proc)
    : fate * list call :=
  run_command W args c.

(** The part of the loop body after the pipeline test: the [&] test, the
    built-ins, and the fork.  Returns the [background] flag as well. *)
Definition run_simple (W : world) (line : string) (p : proc)
    : res (control * bool * proc) :=
  let '(args, _) := parse_args (Some line) EmptyString in
  let? i := count_args args in
  let background :=
    bool_decide (0 < i) && bool_decide (args !! (i - 1) = Some (Some "&")) in
  let args := if background then <[i - 1 := None]> args else args in
  let? b := handle_builtin W args p in
  match b with
  | Some (c, p') => Ok (c, background, p')
  | None =>
      let '(pid, p1) := sys_fork (Some line) (simple_child W args) p in
      Ok (Next, background, if background then p1 else sys_waitpid pid p1)
  end.

(** One iteration of [shell_loop] from the line [fgets] has read to the
    next test of the loop. *)
Definition shell_body (W : world) (input : string) (p : proc)
    : res (control * proc) :=
  let line := trim_newline input in
  if decide (String.length line = 0) then Ok (Next, p)
  else
    let p1 := add_history line p in
    let? (line', p2) := expand_variables line p1 in
    if has_char bar line' then
      let? p3 := execute_pipeline W line' p2 in Ok (Next, p3)
    else
      let? (c, _, p3) := run_simple W line' p2 in Ok (c, p3).

(** [shell_loop] over the lines that the successive calls of [fgets]
    return; the end of the list is the end of the input.  The prompt is not
    part of the state. *)
Fixpoint shell_loop (W : world) (inputs : list string) (p : proc)
    : res (control * proc) :=
  match inputs with
  | [] => Ok (Next, p)
  | l :: rest =>
      let? (c, p') := shell_body W l p in
      match c with
      | Next => shell_loop W rest p'
      | Stop code => Ok (Stop code, p')
      end
  end.

(** ** Reading token lists and logs

    The definitions below are not part of the program: they name what the
    statements talk about. *)

(** The words of a command, as [parse_args] separates them, and the stages
    of a line, as [execute_pipeline] separates them. *)
Definition words (line : string) : list string := tokens " " line.
Definition stages (line : string) : list string := tokens "|" line.

(** The three redirection tokens, tested in the order of the source. *)
Inductive redir := ROut | RAppend | RIn.

Definition redir_of (tok : string) : option redir :=
  if String.eqb tok ">" then Some ROut
  else if String.eqb tok ">>" then Some RAppend
  else if String.eqb tok "<" then Some RIn
  else None.

Definition is_redir (tok : string) : bool :=
  match redir_of tok with Some _ => true | None => false end.

(** The access mode each kind of redirection asks for: read-only for [<],
    write-only create-or-truncate for [>], write-only create-or-append for
    [>>], with permission bits 0644 where a file may be created.  The bits
    are written here as the number they are, 420 in decimal ([rw-r--r--]:
    256 + 128 for the owner, 32 for the group, 4 for the others), not
    through the constant of the program. *)
Definition redir_flags (r : redir) : list oflag :=
  match r with
  | ROut => [O_WRONLY; O_CREAT; O_TRUNC]
  | RAppend => [O_WRONLY; O_CREAT; O_APPEND]
  | RIn => [O_RDONLY]
  end.

Definition redir_mode (r : redir) : option nat :=
  match r with RIn => None | _ => Some 420 end.

(** The standard stream a redirection rebinds. *)
Definition redir_stream (r : redir) : nat :=
  match r with RIn => 0 | _ => 1 end.

(** The redirections of a command, left to right: each redirection token
    with the cell that follows it (NULL after the last token). *)
Fixpoint redirs (toks : list string) : list (redir * ptr) :=
  match toks with
  | [] => []
  | t :: rest =>
      match redir_of t with
      | Some r => (r, head rest) :: redirs rest
      | None => redirs rest
      end
  end.

(** The array after [handle_redirection]: redirection tokens overwritten
    with NULL, every other cell as it was. *)
Definition erase (toks : list string) : list ptr :=
  (fun t => if is_redir t then None else Some t) <$> toks.

(** The tokens in front of the first redirection token. *)
Fixpoint before_redirection (toks : list string) : list string :=
  match toks with
  | [] => []
  | t :: rest => if is_redir t then [] else t :: before_redirection rest
  end.

(** The argument vector as the specification words it: every redirection
    token and the token right after it removed, all other tokens kept.
    [skip] tells that the previous token was a redirection token. *)
Fixpoint strip_redirections (skip : bool) (toks : list string) : list string :=
  match toks with
  | [] => []
  | t :: rest =>
      if skip then strip_redirections false rest
      else if is_redir t then strip_redirections true rest
      else t :: strip_redirections false rest
  end.

(** One redirection as the body of the loop performs it. *)
Definition apply_redir (W : world) (r : redir) (target : ptr) (p : proc) : proc :=
  let '(fd, p1) := sys_open W target (redir_flags r) (redir_mode r) p in
  let p1' :=
    match r with
    | RIn => if (fd <? 0)%Z then sys_perror "open" p1 else p1
    | _ => p1
    end in
  sys_close fd (sys_dup2 fd (redir_stream r) p1').

(** All redirections of a token list, left to right. *)
Fixpoint redirect_all (W : world) (toks : list string) (p : proc) : proc :=
  match toks with
  | [] => p
  | t :: rest =>
      match redir_of t with
      | Some r => redirect_all W rest (apply_redir W r (head rest) p)
      | None => redirect_all W rest p
      end
  end.

Inductive tag :=
| TPipe | TFork | TWait | TClose | TDup2 | TOpen | TPerror | TOther.

#[global] Instance tag_eq_dec : EqDecision tag.
Proof. solve_decision. Defined.

Definition tag_of (c : call) : tag :=
  match c with
  | CPipe _ _ => TPipe
  | CFork _ _ _ _ => TFork
  | CWait _ | CWaitpid _ _ => TWait
  | CClose _ _ => TClose
  | CDup2 _ _ _ => TDup2
  | COpen _ _ _ _ => TOpen
  | CPerror _ => TPerror
  | _ => TOther
  end.

Definition tag_eqb (a b : tag) : bool :=
  match a, b with
  | TPipe, TPipe | TFork, TFork | TWait, TWait | TClose, TClose
  | TDup2, TDup2 | TOpen, TOpen | TPerror, TPerror | TOther, TOther => true
  | _, _ => false
  end.

(** How many calls of a log carry a given tag. *)
Definition count_tag (t : tag) (l : list call) : nat :=
  length (List.filter (fun c => tag_eqb (tag_of c) t) l).

(** The [open] calls of a log, in order, without their results. *)
Definition requests (l : list call) : list (ptr * list oflag * option nat) :=
  omap (fun c => match c with
                 | COpen path fl md _ => Some (path, fl, md)
                 | _ => None
                 end) l.

(** The command texts children were forked for, in order. *)
Definition launched (l : list call) : list ptr :=
  omap (fun c => match c with CFork _ cmd _ _ => Some cmd | _ => None end) l.

(** The argument vectors of the programs the children of a log went on to
    run. *)
Definition programs (l : list call) : list (list string) :=
  omap (fun c => match c with
                 | CFork _ _ _ (Runs _ argv _) => Some argv
                 | _ => None
                 end) l.

(** The pids handed out by the forks of a log, and the pids returned by its
    waits. *)
Definition forked (l : list call) : list Z :=
  omap (fun c => match c with CFork pid _ _ _ => Some (Z.of_nat pid) | _ => None end) l.
Definition waited (l : list call) : list Z :=
  omap (fun c => match c with
                 | CWait r | CWaitpid _ r => Some r
                 | _ => None
                 end) l.

(** The stream an [open] of [handle_redirection] is made for, read off its
    flags. *)
Definition is_rdonly (f : oflag) : bool :=
  match f with O_RDONLY => true | _ => false end.
Definition stream_of_flags (fl : list oflag) : nat :=
  if existsb is_rdonly fl then 0 else 1.

(** The descriptor table [t] after the redirections recorded in a log: each
    open that succeeded rebinds its stream, in the order of the log, so a
    later one overrides an earlier one. *)
Definition rebind (t : gmap nat fdesc) (c : call) : gmap nat fdesc :=
  match c with
  | COpen (Some path) fl _ ret =>
      if (0 <=? ret)%Z then <[stream_of_flags fl := File path fl]> t else t
  | _ => t
  end.
Definition table_after (l : list call) (t : gmap nat fdesc) : gmap nat fdesc :=
  foldl rebind t l.

(** The files successfully opened for stream [s] in a log, in order. *)
Definition succeeded (s : nat) (l : list call) : list fdesc :=
  omap (fun c => match c with
                 | COpen (Some path) fl _ ret =>
                     if (0 <=? ret)%Z && Nat.eqb (stream_of_flags fl) s
                     then Some (File path fl) else None
                 | _ => None
                 end) l.

(** The files the redirections of stream [s] name, in token order. *)
Definition wanted (s : nat) (rs : list (redir * ptr)) : list fdesc :=
  omap (fun '(r, target) =>
          match target with
          | Some f => if Nat.eqb (redir_stream r) s
                      then Some (File f (redir_flags r)) else None
          | None => None
          end) rs.

(** How many opens of a log failed, among those made for stream [s]. *)
Definition failed_opens (s : nat) (l : list call) : nat :=
  length (List.filter
    (fun c => match c with
              | COpen _ fl _ ret =>
                  (ret <? 0)%Z && Nat.eqb (stream_of_flags fl) s
              | _ => false
              end) l).


(** From [t] to [t'] nothing was closed or rebound, and every descriptor
    added is the read end of a pipe. *)
Definition read_ends_added (t t' : gmap nat fdesc) : Prop :=
  t ⊆ t' /\
  forall fd d, t' !! fd = Some d -> t !! fd = Some d \/ exists k, d = PipeRead k.

(** The tags of [n] turns of the loop of [execute_pipeline]. *)
Fixpoint turns (n : nat) : list tag :=
  match n with
  | 0 => []
  | S n' => TPipe :: TFork :: TWait :: TClose :: turns n'
  end.


(** ** Sample machines *)

Definition std_fds : gmap nat fdesc :=
  <[0 := Inherited 0]> (<[1 := Inherited 1]> (<[2 := Inherited 2]> ∅)).

(** A shell just started: the three standard descriptors, no child, empty
    environment and history. *)
Definition fresh_shell : proc := Proc std_fds [] 100 0 ∅ [] [].

(** A shell with one background job still running. *)
Definition busy_shell : proc := Proc std_fds [7] 100 0 ∅ [] [].

(** Every file opens, every program starts, [wait] returns the oldest
    child. *)
Definition generous : world :=
  World (fun _ _ _ => true) (fun _ _ _ => true) (fun _ _ => true) (fun _ => 0).

(** No file can be opened. *)
Definition no_files : world :=
  World (fun _ _ _ => false) (fun _ _ _ => true) (fun _ _ => true) (fun _ => 0).

(** Only [a.txt] can be opened. *)
Definition only_a : world :=
  World (fun _ f _ => String.eqb f "a.txt") (fun _ _ _ => true)
        (fun _ _ => true) (fun _ => 0).

(** [n] copies of the token [x], each followed by a space. *)
Fixpoint many (n : nat) : string :=
  match n with 0 => EmptyString | S n' => String "x" (String " " (many n')) end.

(** ** Names for the statements about the rest of the file *)

(** From [p] to [p'] the process has only made calls: descriptors,
    children, environment and history are the same, and the log has grown. *)
Definition only_logged (p p' : proc) : Prop :=
  fds p' = fds p /\ children p' = children p /\
  env p' = env p /\ history p' = history p /\
  exists new, log p' = log p ++ new.

(** From [p] to [p'] the process has only called [getenv]: descriptors,
    children, environment and history are the same, and the log has grown
    by calls of [getenv] and by nothing else. *)
Definition only_getenv (p p' : proc) : Prop :=
  fds p' = fds p /\ children p' = children p /\
  env p' = env p /\ history p' = history p /\
  exists names, log p' = log p ++ (CGetenv <$> names).

(** [forallb is_name_char] over a text. *)
Definition is_name (s : string) : bool :=
  forallb is_name_char (list_ascii_of_string s).

(** The text does not start with a character of a variable name. *)
Definition ends_name (s : string) : bool :=
  match s with
  | EmptyString => true
  | String c _ => negb (is_name_char c)
  end.

(** The value [getenv] returns, with NULL read as the empty text. *)
Definition value_of (name : string) (p : proc) : string :=
  default EmptyString (env p !! name).

(** The last word is [&]. *)
Definition background_of (toks : list string) : bool :=
  bool_decide (last toks = Some "&").

(** The words of a command without a closing [&]. *)
Definition plain_words (toks : list string) : list string :=
  if background_of toks then take (length toks - 1) toks else toks.

(** The array [args] when [shell_loop] is done with its [&] test: the cell
    of a closing [&] holds NULL. *)
Definition args_of (toks : list string) : list ptr :=
  (Some <$> plain_words toks)
    ++ (if background_of toks then [None; None] else [None]).

(** The names [handle_builtin] knows. *)
Definition is_builtin (a : string) : bool :=
  String.eqb a "exit" || String.eqb a "cd" || String.eqb a "history"
  || String.eqb a "export".

(** A line [shell_loop] treats as a single command without touching its
    text: something is left after the newline is cut, it fits the buffer,
    and it holds neither [$] nor [|]. *)
Definition simple_line (input : string) : Prop :=
  trim_newline input <> EmptyString /\
  String.length (trim_newline input) < MAX_INPUT /\
  has_char dollar (trim_newline input) = false /\
  has_char bar (trim_newline input) = false.


(** No word is a redirection token. *)
Definition no_redirection (toks : list string) : bool :=
  forallb (fun t => negb (is_redir t)) toks.




(** What the programs started by the children of a log have as standard
    input and standard output, in the order of the forks. *)
Definition standard_streams (l : list call) : list (fdesc * fdesc) :=
  omap (fun c => match c with
                 | CFork _ _ _ (Runs _ _ tbl) =>
                     match tbl !! 0, tbl !! 1 with
                     | Some i, Some o => Some (i, o)
                     | _, _ => None
                     end
                 | _ => None
                 end) l.


(** A shell whose environment holds [HOME=/root]. *)
Definition home_shell : proc :=
  Proc std_fds [] 100 0 (<["HOME" := "/root"]> ∅) [] [].

(** A name of [n] letters. *)
Fixpoint letters (n : nat) : string :=
  match n with 0 => EmptyString | S n' => String "x" (letters n') end.

(** ** Waits that do not return

    Whether a [wait] comes back is for the children to decide, not for the
    shell: a child that writes more than a pipe holds into a pipe that
    nobody reads yet never terminates, and the [wait] for it never returns.
    The programs the children run are not part of this development, so
    this is left to an oracle: [returns l] tells whether the [wait] issued
    by a process whose log is [l] ever returns. *)

(** Where a process is when it is looked at: back from its calls, or
    sitting for ever in a [wait]. *)
Inductive progress := Returned | Blocked.

(** [wait(NULL)]: [None] when it never returns.  Without a child it fails
    at once, whatever the children of others do. *)
Definition wait_or_block (W : world) (returns : list call -> bool) (p : proc)
    : option proc :=
  match children p with
  | [] => Some (sys_wait W p)
  | _ :: _ => if returns (log p) then Some (sys_wait W p) else None
  end.

(** The [for] loop of [execute_pipeline] with waits that may not return:
    a wait that blocks leaves the parent where it is, after the fork, for
    ever. *)
Fixpoint stage_loop_blocking (W : world) (returns : list call -> bool)
    (cmds : list ptr) (save : string) (in_fd : Z) (p : proc)
    : progress * Z * proc :=
  match cmds with
  | [] => (Returned, in_fd, p)
  | cmd :: rest =>
      let '(r, w, p1) := sys_pipe p in
      let '(_, p2) := sys_fork cmd (stage_child W in_fd r w cmd save) p1 in
      match wait_or_block W returns p2 with
      | None => (Blocked, in_fd, p2)
      | Some p3 =>
          let p4 := sys_close (Z.of_nat w) p3 in
          stage_loop_blocking W returns rest save (Z.of_nat r) p4
      end
  end.

(** [execute_pipeline(line)] with waits that may not return: the state of
    the parent when it returns to its caller, or when it blocks. *)
Definition execute_pipeline_blocking (W : world) (returns : list call -> bool)
    (line : string) (p : proc) : res (progress * proc) :=
  let '(c0, save0) := strtok (Some line) "|" EmptyString in
  let? (commands, save) := split_commands 9 save0 [c0] in
  let num_cmds := length commands in
  let '(pr, in_fd, p1) :=
    stage_loop_blocking W returns (take (num_cmds - 1) commands) save 0 p in
  match pr with
  | Blocked => Ok (Blocked, p1)
  | Returned =>
      match commands !! (num_cmds - 2) with
      | None => Fault OutOfBounds
      | Some cmd =>
          let '(args, _) := parse_args cmd save in
          let '(_, p2) := sys_fork cmd (last_child W in_fd args) p1 in
          match wait_or_block W returns p2 with
          | None => Ok (Blocked, p2)
          | Some p3 => Ok (Returned, p3)
          end
      end
  end.

Definition stuck : list call -> bool := fun _ => false.

(** ** White space

    The characters [isspace] accepts in the C locale: space, tab, newline,
    vertical tab, form feed and carriage return; and the tokens of a line
    when all of them separate. *)
Definition whitespace : string :=
  string_of_list_ascii (ascii_of_nat <$> [32; 9; 10; 11; 12; 13]).

Definition whitespace_tokens (line : string) : list string :=
  tokens whitespace line.

(** [ls], a tab, [-l]. *)
Definition ls_tab_l : string :=
  String.append "ls" (String (ascii_of_nat 9) "-l").
(** ** Proof automation *)

(** Reads the fields of a process built by the [sys_] functions. *)
Ltac proc_simpl :=
  unfold emit, with_fds, with_children;
  cbn [fds children next_pid next_pipe env history log].

(** * Properties *)
(** ** Facts about [strtok] and [tokens] *)

Section Strtok.
Variable delim : string.

Lemma fields_not_nil s : fields delim s <> [].
Proof.
  destruct s as [|c s]; simpl; [done|].
  destruct (is_delim delim c); [done|].
  by destruct (fields delim s).
Qed.

Lemma tokens_delim c s :
  is_delim delim c = true -> tokens delim (String c s) = tokens delim s.
Proof. unfold tokens. simpl. by intros ->. Qed.

Lemma tokens_strspn_drop s : tokens delim (strspn_drop delim s) = tokens delim s.
Proof.
  induction s as [|c s IH]; simpl; [done|].
  destruct (is_delim delim c) eqn:E; [|done].
  by rewrite tokens_delim.
Qed.

Lemma strspn_drop_head c s' s :
  strspn_drop delim s = String c s' -> is_delim delim c = false.
Proof.
  induction s as [|a s IH]; simpl; [done|].
  destruct (is_delim delim a) eqn:E; [done|].
  intros [= -> ->]. done.
Qed.

Lemma fields_strcspn_split s t r :
  strcspn_split delim s = (t, r) ->
  fields delim s = t :: match r with Some r' => fields delim r' | None => [] end.
Proof.
  revert t r. induction s as [|c s IH]; simpl; intros t r.
  - by intros [= <- <-].
  - destruct (is_delim delim c) eqn:E.
    + by intros [= <- <-].
    + destruct (strcspn_split delim s) as [t' r'] eqn:Es.
      intros [= <- <-]. by rewrite (IH _ _ eq_refl).
Qed.

Lemma strcspn_split_nonempty c s t r :
  is_delim delim c = false ->
  strcspn_split delim (String c s) = (t, r) -> nonempty t = true.
Proof.
  simpl. intros ->. destruct (strcspn_split delim s). by intros [= <- <-].
Qed.

(** One call of [strtok] hands out the first token and leaves the save
    pointer on a text holding the remaining ones. *)
Lemma strtok_tokens s save :
  let s0 := match s with Some x => x | None => save end in
  let '(t, save') := strtok s delim save in
  t = head (tokens delim s0) /\ tokens delim save' = tail (tokens delim s0).
Proof.
  intros s0. unfold strtok. fold s0.
  rewrite <- (tokens_strspn_drop s0).
  destruct (strspn_drop delim s0) as [|c s1] eqn:E; [done|].
  pose proof (strspn_drop_head _ _ _ E) as Hc.
  destruct (strcspn_split delim (String c s1)) as [t r] eqn:Es.
  pose proof (strcspn_split_nonempty _ _ _ _ Hc Es) as Ht.
  unfold tokens at 1 3. rewrite (fields_strcspn_split _ _ _ Es). simpl.
  rewrite Ht. simpl. split; [done|].
  destruct r; [done|]. done.
Qed.
End Strtok.

(** ** parse_args *)

Lemma strtok_next delim save t save' :
  strtok None delim save = (t, save') ->
  t = head (tokens delim save) /\ tokens delim save' = tail (tokens delim save).
Proof.
  intros E. pose proof (strtok_tokens delim None save) as H.
  simpl in H. by rewrite E in H.
Qed.

Lemma strtok_first delim s save t save' :
  strtok (Some s) delim save = (t, save') ->
  t = head (tokens delim s) /\ tokens delim save' = tail (tokens delim s).
Proof.
  intros E. pose proof (strtok_tokens delim (Some s) save) as H.
  simpl in H. by rewrite E in H.
Qed.

(** The cells the loop appends once [args[i]] is a token: the next [n]
    tokens, and the terminating NULL when they run out first. *)
Lemma parse_args_loop_cells n : forall c save args,
  (parse_args_loop n (Some c) save args).1 =
  (args ++ (Some <$> take n (tokens " " save))
        ++ (if decide (length (tokens " " save) < n) then [None] else [])).
Proof.
  induction n as [|n IH]; intros c save args.
  - simpl. by rewrite app_nil_r.
  - simpl. destruct (strtok None " " save) as [t save'] eqn:E.
    apply strtok_next in E as [-> Hrest].
    destruct (tokens " " save) as [|r rs]; simpl in *.
    + by destruct n.
    + rewrite IH, Hrest, <- app_assoc. simpl.
      repeat case_decide; try lia; done.
Qed.

Lemma parse_args_cells line save :
  (parse_args (Some line) save).1 =
  ((Some <$> take MAX_ARGS (tokens " " line))
     ++ (if decide (length (tokens " " line) < MAX_ARGS) then [None] else [])).
Proof.
  unfold parse_args.
  destruct (strtok (Some line) " " save) as [t save'] eqn:E.
  apply strtok_first in E as [-> Hrest].
  destruct (tokens " " line) as [|r rs].
  - reflexivity.
  - cbn [head].
    change (MAX_ARGS - 1) with 127. change MAX_ARGS with (S 127).
    rewrite parse_args_loop_cells, Hrest. cbn [tail take fmap list_fmap length].
    repeat case_decide; try lia; done.
Qed.

(** A NULL [line] resumes at the save pointer. *)
Lemma parse_args_resume save :
  (parse_args None save).1 =
  ((Some <$> take MAX_ARGS (tokens " " save))
     ++ (if decide (length (tokens " " save) < MAX_ARGS) then [None] else [])).
Proof.
  unfold parse_args.
  destruct (strtok None " " save) as [t save'] eqn:E.
  apply strtok_next in E as [-> Hrest].
  destruct (tokens " " save) as [|r rs].
  - reflexivity.
  - cbn [head].
    change (MAX_ARGS - 1) with 127. change MAX_ARGS with (S 127).
    rewrite parse_args_loop_cells, Hrest. cbn [tail take fmap list_fmap length].
    repeat case_decide; try lia; done.
Qed.

(** C9, as the code has it: the tokens are the pieces of the line between
    spaces, the space being the only delimiter [strtok] is given; a tab is
    part of a token.  A line of at most MAX_ARGS-1 such tokens is stored
    token by token and closed by a NULL cell; no cell at index MAX_ARGS or
    beyond is ever written; from MAX_ARGS tokens on, the first MAX_ARGS
    tokens fill the array, the others are dropped, and no NULL cell is
    written. *)
Theorem parse_args_writes line save :
  let toks := words line in
  let args := (parse_args (Some line) save).1 in
  (length toks <= MAX_ARGS - 1 -> args = (Some <$> toks) ++ [None]) /\
  length args <= MAX_ARGS /\
  (MAX_ARGS <= length toks ->
     args = Some <$> take MAX_ARGS toks /\ length args = MAX_ARGS /\ None ∉ args).
Proof.
  intros toks args. subst args. rewrite parse_args_cells. fold (words line). fold toks.
  change (MAX_ARGS - 1) with 127. change MAX_ARGS with 128.
  split; [|split].
  - intros H. rewrite take_ge by lia. case_decide; [done|lia].
  - rewrite length_app, length_fmap, length_take.
    case_decide; cbn [length]; lia.
  - intros H. case_decide; [lia|]. rewrite app_nil_r.
    split; [done|]. split.
    + rewrite length_fmap, length_take. lia.
    + intros Hin. apply list_elem_of_fmap in Hin as (x & Hx & _). done.
Qed.

(** ** Descriptor tables *)

Lemma lowest_free_fresh (t : gmap nat fdesc) : t !! lowest_free t = None.
Proof.
  unfold lowest_free.
  destruct (List.find _ _) as [n|] eqn:E; simpl.
  - apply List.find_some in E as [_ H]. by apply bool_decide_eq_true in H.
  - destruct (t !! size t) as [d|] eqn:Hd; [exfalso|done].
    assert (Hsub : set_seq (C := gset nat) 0 (size t) ⊆ dom t).
    { intros x Hx. apply elem_of_set_seq in Hx as [_ Hx].
      apply elem_of_dom. destruct (t !! x) eqn:Ex; [done|].
      pose proof (List.find_none _ _ E x) as Hn.
      rewrite bool_decide_eq_false in Hn. exfalso. apply Hn; [|done].
      apply List.in_seq. lia. }
    apply set_subseteq_size_eq in Hsub.
    + assert (Hin : size t ∈ dom t) by (apply elem_of_dom; eauto).
      rewrite <- Hsub in Hin. apply elem_of_set_seq in Hin. lia.
    + rewrite size_set_seq, size_dom. done.
Qed.

Lemma fd_get_of_nat n (t : gmap nat fdesc) : fd_get (Z.of_nat n) t = t !! n.
Proof.
  unfold fd_get. destruct (Z.leb_spec 0 (Z.of_nat n)); [|lia]. by rewrite Nat2Z.id.
Qed.

Lemma fd_get_neg fd (t : gmap nat fdesc) : (fd < 0)%Z -> fd_get fd t = None.
Proof. unfold fd_get. intros. by destruct (Z.leb_spec 0 fd); [lia|]. Qed.

(** ** handle_redirection *)

Lemma redir_of_cases tok :
  redir_of tok =
  if String.eqb tok ">" then Some ROut
  else if String.eqb tok ">>" then Some RAppend
  else if String.eqb tok "<" then Some RIn else None.
Proof. reflexivity. Qed.

(** The loop, started at cell [length pre] of an array whose remaining
    cells are the tokens [toks], the terminating NULL and whatever follows
    it, performs the
    redirections of [toks] from left to right and overwrites exactly the
    redirection tokens. *)
Lemma handle_redirection_loop_run W toks tail : forall n pre p,
  length toks < n ->
  handle_redirection_loop W n (length pre) (pre ++ (Some <$> toks) ++ None :: tail) p
  = Ok (pre ++ erase toks ++ None :: tail, redirect_all W toks p).
Proof.
  induction toks as [|t rest IH]; intros n pre p Hn.
  - destruct n as [|n]; [simpl in Hn; lia|]. simpl.
    by rewrite list_lookup_middle.
  - destruct n as [|n]; [simpl in Hn; lia|].
    simpl in Hn.
    set (arr := pre ++ (Some <$> t :: rest) ++ None :: tail).
    assert (Hcur : arr !! length pre = Some (Some t)).
    { subst arr. simpl. by apply list_lookup_middle. }
    assert (Hnext : arr !! (length pre + 1) = Some (head rest)).
    { subst arr. rewrite lookup_app_r by lia.
      replace (length pre + 1 - length pre) with 1 by lia.
      by destruct rest. }
    assert (Hkeep : arr = (pre ++ [Some t]) ++ (Some <$> rest) ++ None :: tail).
    { subst arr. simpl. by rewrite <- app_assoc. }
    assert (Hins : <[length pre := None]> arr
                   = (pre ++ [None]) ++ (Some <$> rest) ++ None :: tail).
    { subst arr. simpl. rewrite <- app_assoc. simpl.
      replace (length pre) with (length pre + 0) at 1 by lia.
      by rewrite insert_app_r. }
    assert (Hlen : forall x : ptr, S (length pre) = length (pre ++ [x])).
    { intros x. rewrite length_app. simpl. lia. }
    clearbody arr.
    cbn [handle_redirection_loop]. rewrite Hcur.
    cbn [redirect_all erase fmap list_fmap]. unfold is_redir.
    rewrite redir_of_cases.
    destruct (String.eqb t ">") eqn:E1;
      [|destruct (String.eqb t ">>") eqn:E2;
        [|destruct (String.eqb t "<") eqn:E3]];
      rewrite ?Hnext.
    + unfold apply_redir. cbn [redir_flags redir_mode redir_stream].
      change mode_0644 with 420.
      destruct (sys_open _ _ _ _ _) as [fd p1].
      rewrite Hins, (Hlen None), IH by lia. by rewrite <- app_assoc.
    + unfold apply_redir. cbn [redir_flags redir_mode redir_stream].
      change mode_0644 with 420.
      destruct (sys_open _ _ _ _ _) as [fd p1].
      rewrite Hins, (Hlen None), IH by lia. by rewrite <- app_assoc.
    + unfold apply_redir. cbn [redir_flags redir_mode redir_stream].
      change mode_0644 with 420.
      destruct (sys_open _ _ _ _ _) as [fd p1].
      rewrite Hins, (Hlen None), IH by lia. by rewrite <- app_assoc.
    + rewrite Hkeep, (Hlen (Some t)), IH by lia.
      by rewrite <- app_assoc.
Qed.

(** The bound [n] is only there to make the recursion structural: once it
    exceeds the number of cells left, a larger one changes nothing, and the
    fault at [n = 0] is the read past the last written cell. *)
Lemma handle_redirection_loop_fuel W n : forall m i args p,
  length args < n + i -> n <= m ->
  handle_redirection_loop W n i args p = handle_redirection_loop W m i args p.
Proof.
  induction n as [|n IH]; intros m i args p Hlen Hm.
  - destruct m as [|m]; [done|]. cbn [handle_redirection_loop].
    rewrite lookup_ge_None_2 by lia. done.
  - destruct m as [|m]; [lia|]. cbn [handle_redirection_loop].
    destruct (args !! i) as [[tok|]|]; [|done|done].
    assert (Hi : forall x : ptr, length (<[i := x]> args) < n + S i)
      by (intros x; rewrite length_insert; lia).
    repeat (destruct (String.eqb tok _));
      try (destruct (args !! (i + 1)); [|done];
           destruct (sys_open _ _ _ _ _) as [fd p1]);
      apply IH; (apply Hi || lia).
Qed.

Lemma handle_redirection_run_tail W toks tail p :
  handle_redirection W ((Some <$> toks) ++ None :: tail) p
  = Ok (erase toks ++ None :: tail, redirect_all W toks p).
Proof.
  unfold handle_redirection.
  apply (handle_redirection_loop_run W toks tail _ [] p).
  rewrite length_app, length_fmap. simpl. lia.
Qed.

Lemma handle_redirection_run W toks p :
  handle_redirection W ((Some <$> toks) ++ [None]) p
  = Ok (erase toks ++ [None], redirect_all W toks p).
Proof. apply handle_redirection_run_tail. Qed.

(** Rebinding a stream through a fresh descriptor that is closed at once
    leaves exactly the stream rebound. *)
Lemma rebind_through (t : gmap nat fdesc) fd s d :
  t !! fd = None -> is_Some (t !! s) ->
  delete fd (<[s := d]> (<[fd := d]> t)) = <[s := d]> t.
Proof.
  intros Hfd [x Hs].
  assert (fd <> s) by congruence.
  rewrite delete_insert_ne by done. by rewrite delete_insert_id.
Qed.

Lemma redir_stream_flags r : stream_of_flags (redir_flags r) = redir_stream r.
Proof. by destruct r. Qed.

Lemma table_after_app l1 l2 t :
  table_after (l1 ++ l2) t = table_after l2 (table_after l1 t).
Proof. apply foldl_app. Qed.

Lemma table_after_keeps l k : forall t,
  is_Some (t !! k) -> is_Some (table_after l t !! k).
Proof.
  induction l as [|c l IH]; intros t Hk; simpl; [done|].
  apply IH. destruct c; simpl; try done.
  destruct path; [|done]. destruct (0 <=? ret)%Z; [|done].
  rewrite lookup_insert. case_decide; [eauto|done].
Qed.

Lemma count_tag_app t l1 l2 :
  count_tag t (l1 ++ l2) = count_tag t l1 + count_tag t l2.
Proof. unfold count_tag. by rewrite List.filter_app, length_app. Qed.

Lemma failed_opens_app s l1 l2 :
  failed_opens s (l1 ++ l2) = failed_opens s l1 + failed_opens s l2.
Proof. unfold failed_opens. by rewrite List.filter_app, length_app. Qed.

Lemma requests_app l1 l2 : requests (l1 ++ l2) = requests l1 ++ requests l2.
Proof. apply omap_app. Qed.

(** What one redirection does: one [open] with the flags of its kind, a
    diagnostic only for a failed [<], and, in a process whose target stream
    is open, the stream rebound if and only if the open succeeded. *)
Lemma apply_redir_effect W r target p :
  exists new,
    log (apply_redir W r target p) = log p ++ new /\
    requests new = [(target, redir_flags r, redir_mode r)] /\
    count_tag TPerror new = failed_opens 0 new /\
    (is_Some (fds p !! redir_stream r) ->
     fds (apply_redir W r target p) = table_after new (fds p)).
Proof.
  unfold apply_redir, sys_open.
  destruct target as [f|]; [destruct (open_ok W (log p) f (redir_flags r)) eqn:Eo|].
  - (* the open succeeds *)
    pose proof (lowest_free_fresh (fds p)) as Hfresh.
    set (fd := lowest_free (fds p)) in *.
    assert (Hlt : (Z.of_nat fd <? 0)%Z = false) by (apply Z.ltb_ge; lia).
    assert (Hge : (0 <=? Z.of_nat fd)%Z = true) by (apply Z.leb_le; lia).
    exists [COpen (Some f) (redir_flags r) (redir_mode r) (Z.of_nat fd);
            CDup2 (Z.of_nat fd) (Z.of_nat (redir_stream r)) (Z.of_nat (redir_stream r));
            CClose (Z.of_nat fd) 0].
    assert (Hp1 : forall p1, fds p1 = <[fd := File f (redir_flags r)]> (fds p) ->
      let q := sys_close (Z.of_nat fd) (sys_dup2 (Z.of_nat fd) (redir_stream r) p1) in
      log q = log p1 ++ [CDup2 (Z.of_nat fd) (Z.of_nat (redir_stream r))
                               (Z.of_nat (redir_stream r));
                         CClose (Z.of_nat fd) 0] /\
      (is_Some (fds p !! redir_stream r) ->
       fds q = <[redir_stream r := File f (redir_flags r)]> (fds p))).
    { intros p1 Hp1. unfold sys_dup2. rewrite fd_get_of_nat, Hp1, lookup_insert_eq.
      unfold sys_close. cbn [fds emit with_fds].
      assert (Hopen : <[redir_stream r := File f (redir_flags r)]>
                        (<[fd := File f (redir_flags r)]> (fds p)) !! fd
                      = Some (File f (redir_flags r))).
      { rewrite lookup_insert. case_decide; [done|]. by rewrite lookup_insert_eq. }
      rewrite fd_get_of_nat, Hopen.
      cbn. rewrite Nat2Z.id, <- app_assoc. split; [done|].
      by apply rebind_through. }
    destruct r; cbn [redir_flags redir_mode redir_stream] in *; rewrite ?Hlt;
      (edestruct Hp1 as [Hl Hf]; [|rewrite Hl]; [reflexivity|]);
      cbn; rewrite ?Hge, ?Hlt; cbn; rewrite <- app_assoc; done.
  - (* the world refuses the open *)
    exists (COpen (Some f) (redir_flags r) (redir_mode r) (-1)
            :: (match r with RIn => [CPerror "open"] | _ => [] end)
            ++ [CDup2 (-1) (Z.of_nat (redir_stream r)) (-1); CClose (-1) (-1)]).
    destruct r; cbn; rewrite <- ?app_assoc; done.
  - (* a NULL path *)
    exists (COpen None (redir_flags r) (redir_mode r) (-1)
            :: (match r with RIn => [CPerror "open"] | _ => [] end)
            ++ [CDup2 (-1) (Z.of_nat (redir_stream r)) (-1); CClose (-1) (-1)]).
    destruct r; cbn; rewrite <- ?app_assoc; done.
Qed.

(** All redirections of a command, left to right. *)
Lemma redirect_all_effect W toks : forall p,
  exists new,
    log (redirect_all W toks p) = log p ++ new /\
    requests new
      = (fun '(r, target) => (target, redir_flags r, redir_mode r)) <$> redirs toks /\
    count_tag TPerror new = failed_opens 0 new /\
    (is_Some (fds p !! 0) -> is_Some (fds p !! 1) ->
     fds (redirect_all W toks p) = table_after new (fds p)).
Proof.
  induction toks as [|t rest IH]; intros p; simpl.
  - exists []. by rewrite app_nil_r.
  - destruct (redir_of t) as [r|]; [|by apply IH].
    destruct (apply_redir_effect W r (head rest) p) as (n1 & Hl1 & Hr1 & Hp1 & Hf1).
    destruct (IH (apply_redir W r (head rest) p)) as (n2 & Hl2 & Hr2 & Hp2 & Hf2).
    exists (n1 ++ n2).
    rewrite Hl2, Hl1, requests_app, Hr1, Hr2,
      !count_tag_app, failed_opens_app, Hp1, Hp2, <- app_assoc.
    split; [done|]. split; [done|]. split; [done|].
    intros H0 H1.
    assert (Hs : is_Some (fds p !! redir_stream r)) by (by destruct r).
    rewrite table_after_app, <- (Hf1 Hs).
    apply Hf2; rewrite (Hf1 Hs); by apply table_after_keeps.
Qed.

(** A stream ends up on the file of the last open that succeeded for it,
    and stays as it was when there is none. *)
Lemma table_after_lookup l s : forall t,
  table_after l t !! s
  = match last (succeeded s l) with Some d => Some d | None => t !! s end.
Proof.
  induction l as [|c l IH] using rev_ind; intros t; [done|].
  rewrite table_after_app. unfold succeeded. rewrite omap_app. fold (succeeded s l).
  cbn [table_after foldl omap].
  destruct c; cbn; rewrite ?app_nil_r; try apply IH.
  destruct path as [f|]; cbn; rewrite ?app_nil_r; [|apply IH].
  destruct (0 <=? ret)%Z; cbn; rewrite ?app_nil_r; [|apply IH].
  destruct (Nat.eqb_spec (stream_of_flags flags) s) as [->|Hne]; cbn.
  - by rewrite last_snoc, lookup_insert_eq.
  - rewrite app_nil_r, lookup_insert_ne by done. apply IH.
Qed.

Lemma last_redirs_trailing toks tok r :
  redir_of tok = Some r -> last (redirs (toks ++ [tok])) = Some (r, None).
Proof.
  intros Hr. induction toks as [|t rest IH]; simpl.
  - by rewrite Hr.
  - destruct (redir_of t); [|done].
    rewrite last_cons, IH. done.
Qed.

Lemma argv_of_erase toks :
  argv_of (erase toks ++ [None]) = Ok (before_redirection toks).
Proof.
  induction toks as [|t rest IH]; simpl; [done|].
  destruct (is_redir t); simpl; [done|].
  by rewrite IH.
Qed.

(** The cells [parse_args] hands to [handle_redirection] for a line of
    fewer than MAX_ARGS tokens. *)
Lemma parse_args_short line save :
  length (words line) < MAX_ARGS ->
  (parse_args (Some line) save).1 = (Some <$> words line) ++ [None].
Proof.
  unfold words. intros H. rewrite parse_args_cells, take_ge by lia. by case_decide.
Qed.

(** When no open of a log failed, the files opened for a stream are the
    files asked for. *)
Lemma succeeded_requests s l :
  failed_opens 0 l = 0 -> failed_opens 1 l = 0 ->
  succeeded s l
  = omap (fun '(path, fl, _) =>
            match path with
            | Some f => if Nat.eqb (stream_of_flags fl) s
                        then Some (File f fl) else None
            | None => None
            end) (requests l).
Proof.
  unfold failed_opens, succeeded, requests.
  induction l as [|c l IH]; [done|].
  destruct c; cbn; try exact IH.
  destruct path as [f|]; cbn.
  - destruct (ret <? 0)%Z eqn:Er.
    + unfold stream_of_flags. destruct (existsb is_rdonly flags); cbn; lia.
    + assert ((0 <=? ret)%Z = true) as -> by lia. cbn.
      intros H0 H1. rewrite (IH H0 H1). done.
  - destruct ((ret <? 0)%Z && _)%bool, ((ret <? 0)%Z && _)%bool; cbn; try lia; exact IH.
Qed.

Lemma wanted_requests s rs :
  omap (fun '(path, fl, _) =>
          match path with
          | Some f => if Nat.eqb (stream_of_flags fl) s
                      then Some (File f fl) else None
          | None => None
          end)
       ((fun '(r, target) => (target, redir_flags r, redir_mode r)) <$> rs)
  = wanted s rs.
Proof.
  unfold wanted. induction rs as [|[r t] rs IH]; [done|].
  cbn. rewrite IH, redir_stream_flags. done.
Qed.

Section Redirection.
Variable W : world.
Variables (line save : string) (p : proc).
Hypothesis short : length (words line) < MAX_ARGS.

Lemma handle_redirection_short :
  handle_redirection W (parse_args (Some line) save).1 p
  = Ok (erase (words line) ++ [None], redirect_all W (words line) p).
Proof. rewrite parse_args_short by done. apply handle_redirection_run. Qed.

(** C7, as the code has it: [handle_redirection] overwrites each
    redirection token with NULL and moves nothing, so the vector handed to
    [execvp] is made of the words in front of the first redirection token;
    file names and whatever follows them are not passed on. *)
Theorem handle_redirection_argv :
  exists p',
    handle_redirection W (parse_args (Some line) save).1 p
      = Ok (erase (words line) ++ [None], p') /\
    argv_of (erase (words line) ++ [None]) = Ok (before_redirection (words line)) /\
    forall file rest,
      before_redirection (words line) = file :: rest ->
      (run_command W (parse_args (Some line) save).1 p).1
      = if exec_ok W (log p') file (file :: rest)
        then Runs file (file :: rest) (fds p') else Exits 1.
Proof.
  exists (redirect_all W (words line) p).
  split; [apply handle_redirection_short|]. split; [apply argv_of_erase|].
  intros file rest Hb. unfold run_command. rewrite handle_redirection_short.
  unfold exec_or_exit. rewrite argv_of_erase.
  assert (H0 : (erase (words line) ++ [None]) !! 0 = Some (Some file)).
  { destruct (words line) as [|t ts]; [done|]. simpl in *.
    destruct (is_redir t); [done|]. by injection Hb as -> _. }
  rewrite H0, Hb. by destruct (exec_ok _ _ _ _).
Qed.

(** C8, as the code has it: each redirection is opened with the flags of
    its kind, read-only for [<], write-only create-or-truncate for [>],
    write-only create-or-append for [>>], the latter two with mode 0644,
    that is 420, and the opens are issued in token order.  "The last one
    wins" holds with two provisos: in a process whose standard input and
    output are open, each stream ends up on the file of the last open that
    succeeded for it; so, when every open succeeds, on the file of its last
    redirection in token order. *)
Theorem handle_redirection_opens :
  exists args' p' new,
    handle_redirection W (parse_args (Some line) save).1 p = Ok (args', p') /\
    log p' = log p ++ new /\
    requests new
      = (fun '(r, target) => (target, redir_flags r, redir_mode r))
          <$> redirs (words line) /\
    (is_Some (fds p !! 0) -> is_Some (fds p !! 1) ->
     (forall s, fds p' !! s
        = match last (succeeded s new) with Some d => Some d | None => fds p !! s end) /\
     (failed_opens 0 new = 0 -> failed_opens 1 new = 0 ->
      forall s, fds p' !! s
        = match last (wanted s (redirs (words line))) with
          | Some d => Some d
          | None => fds p !! s
          end)).
Proof.
  destruct (redirect_all_effect W (words line) p) as (new & Hl & Hr & _ & Hf).
  exists (erase (words line) ++ [None]), (redirect_all W (words line) p), new.
  split; [apply handle_redirection_short|]. split; [done|]. split; [done|].
  intros H0 H1.
  assert (Hlast : forall s, fds (redirect_all W (words line) p) !! s
            = match last (succeeded s new) with
              | Some d => Some d | None => fds p !! s end).
  { intros s. rewrite (Hf H0 H1). apply table_after_lookup. }
  split; [done|].
  intros F0 F1 s. by rewrite Hlast, (succeeded_requests s new F0 F1), Hr, wanted_requests.
Qed.

(** C6, as the code has it: a diagnostic is printed for the failed opens of
    [<] and for no other; whatever the opens return, the redirections are
    followed by the [execvp] of the command. *)
Theorem handle_redirection_diagnostics :
  exists args' p' new,
    handle_redirection W (parse_args (Some line) save).1 p = Ok (args', p') /\
    log p' = log p ++ new /\
    count_tag TPerror new = failed_opens 0 new /\
    run_command W (parse_args (Some line) save).1 p = exec_or_exit W args' p'.
Proof.
  destruct (redirect_all_effect W (words line) p) as (new & Hl & _ & Hp & _).
  exists (erase (words line) ++ [None]), (redirect_all W (words line) p), new.
  split; [apply handle_redirection_short|]. split; [done|]. split; [done|].
  unfold run_command. by rewrite handle_redirection_short.
Qed.

(** C5, as the code has it: when the last word is a redirection token, the
    cell after it is the terminating NULL, which is inside the array, and
    that NULL is what [open] is given as its path; a diagnostic follows for
    [<] only. *)
Theorem trailing_redirection_opens_null front tok r :
  words line = front ++ [tok] -> redir_of tok = Some r ->
  exists args' p' new,
    handle_redirection W (parse_args (Some line) save).1 p = Ok (args', p') /\
    log p' = log p ++ new /\
    last (requests new) = Some (None, redir_flags r, redir_mode r) /\
    count_tag TPerror new = failed_opens 0 new.
Proof.
  intros Htoks Hr.
  destruct (redirect_all_effect W (words line) p) as (new & Hl & Hq & Hp & _).
  exists (erase (words line) ++ [None]), (redirect_all W (words line) p), new.
  split; [apply handle_redirection_short|]. split; [done|]. split; [|done].
  rewrite Hq, Htoks, fmap_last, (last_redirs_trailing _ _ _ Hr). done.
Qed.
End Redirection.

(** ** execute_pipeline *)

Lemma strtok_null s delim save save' :
  strtok s delim save = (None, save') -> save' = EmptyString.
Proof.
  unfold strtok. destruct (strspn_drop _ _); [by intros [= <-]|].
  by destruct (strcspn_split _ _).
Qed.

(** The [while] loop stores the remaining stages and the NULL that ends
    them, provided they fit in the free cells. *)
Lemma split_commands_run n : forall save commands,
  length (tokens "|" save) < n ->
  split_commands n save commands
  = Ok (commands ++ (Some <$> tokens "|" save) ++ [None], EmptyString).
Proof.
  induction n as [|n IH]; intros save commands Hn; [lia|].
  simpl. destruct (strtok None "|" save) as [t save'] eqn:E.
  pose proof (strtok_next _ _ _ _ E) as [-> Hrest].
  destruct (tokens "|" save) as [|s rest]; simpl in *.
  - by rewrite (strtok_null _ _ _ _ E).
  - rewrite IH by (rewrite Hrest; lia). by rewrite Hrest, <- app_assoc.
Qed.

(** With more stages than free cells the loop stores past the array. *)
Lemma split_commands_overrun n : forall save commands,
  n <= length (tokens "|" save) ->
  split_commands n save commands = Fault OutOfBounds.
Proof.
  induction n as [|n IH]; intros save commands Hn; [done|].
  simpl. destruct (strtok None "|" save) as [t save'] eqn:E.
  pose proof (strtok_next _ _ _ _ E) as [-> Hrest].
  destruct (tokens "|" save) as [|s rest]; simpl in *; [lia|].
  apply IH. rewrite Hrest. lia.
Qed.

Lemma read_ends_added_refl t : read_ends_added t t.
Proof. split; [done|]. intros fd d H. by left. Qed.

Lemma read_ends_added_trans t1 t2 t3 :
  read_ends_added t1 t2 -> read_ends_added t2 t3 -> read_ends_added t1 t3.
Proof.
  intros [S1 N1] [S2 N2]. split; [by etransitivity|].
  intros fd d H. destruct (N2 _ _ H) as [H2|?]; [|by right]. by apply N1.
Qed.

Lemma read_ends_added_insert (t : gmap nat fdesc) r k :
  t !! r = None -> read_ends_added t (<[r := PipeRead k]> t).
Proof.
  intros Hr. split; [by apply insert_subseteq|].
  intros fd d. rewrite lookup_insert. case_decide; [|by left].
  intros [= <-]. right. by exists k.
Qed.

(** One turn of the [for] loop: a pipe, a fork, a wait, the write end
    closed; the read end stays open and becomes [in_fd]. *)
Lemma stage_loop_step W cmd rest save in_fd p :
  let k := next_pipe p in
  let r := lowest_free (fds p) in
  let w := lowest_free (<[r := PipeRead k]> (fds p)) in
  exists clog f x kids,
    stage_loop W (cmd :: rest) save in_fd p
    = stage_loop W rest save (Z.of_nat r)
        (Proc (<[r := PipeRead k]> (fds p)) kids (S (next_pid p)) (S k)
              (env p) (history p)
              (log p ++ [CPipe r w; CFork (next_pid p) cmd clog f; CWait x;
                         CClose (Z.of_nat w) 0])) /\
    (children p = [] -> kids = [] /\ x = Z.of_nat (next_pid p)).
Proof.
  intros k r w. cbn [stage_loop]. unfold sys_pipe. fold k r. fold w.
  pose proof (lowest_free_fresh (<[r := PipeRead k]> (fds p))) as Hw. fold w in Hw.
  unfold sys_fork. proc_simpl.
  destruct (stage_child _ _ _ _ _ _ _) as [f clog].
  unfold sys_wait. proc_simpl.
  destruct (children p ++ [next_pid p]) as [|c cs] eqn:Ek.
  { by destruct (children p). }
  set (i := wait_pick W _ mod length (c :: cs)).
  unfold sys_close. proc_simpl.
  rewrite fd_get_of_nat, lookup_insert_eq. proc_simpl.
  rewrite Nat2Z.id, delete_insert_id by done.
  exists clog, f, (Z.of_nat (nth i (c :: cs) c)), (delete i (c :: cs)).
  split.
  - by rewrite <- !app_assoc.
  - intros Hc. rewrite Hc in Ek. injection Ek as <- <-.
    subst i. by rewrite Nat.mod_1_r.
Qed.

Lemma stage_loop_run W save cmds : forall in_fd p,
  exists new,
    log (stage_loop W cmds save in_fd p).2 = log p ++ new /\
    tag_of <$> new = turns (length cmds) /\
    launched new = cmds /\
    size (fds (stage_loop W cmds save in_fd p).2) = size (fds p) + length cmds /\
    read_ends_added (fds p) (fds (stage_loop W cmds save in_fd p).2) /\
    (children p = [] ->
       children (stage_loop W cmds save in_fd p).2 = [] /\ waited new = forked new).
Proof.
  induction cmds as [|cmd rest IH]; intros in_fd p.
  - exists []. simpl. rewrite app_nil_r. repeat split; try done; try lia.
    apply read_ends_added_refl.
  - destruct (stage_loop_step W cmd rest save in_fd p) as (clog & f & x & kids & -> & Hk).
    set (q := Proc _ _ _ _ _ _ _).
    destruct (IH (Z.of_nat (lowest_free (fds p))) q) as (new & Hl & Ht & Hla & Hs & Hr & Hc).
    pose proof (lowest_free_fresh (fds p)) as Hfresh.
    eexists (_ :: _ :: _ :: _ :: new).
    rewrite Hl. subst q. cbn [log fds children] in *.
    split; [by rewrite <- app_assoc|].
    split; [by cbn; rewrite Ht|].
    split; [by unfold launched in *; cbn; rewrite Hla|].
    split; [rewrite Hs, map_size_insert_None by done; cbn [length]; lia|].
    split.
    { eapply read_ends_added_trans; [|exact Hr]. by apply read_ends_added_insert. }
    intros Hp. destruct (Hk Hp) as [-> ->]. destruct (Hc eq_refl) as [Hc1 Hc2].
    split; [done|]. unfold waited, forked in *. cbn. by rewrite Hc2.
Qed.

(** A fork directly followed by a wait, as after the loop. *)
Lemma fork_then_wait W cmd body p :
  exists clog f x kids,
    sys_wait W (sys_fork cmd body p).2
    = Proc (fds p) kids (S (next_pid p)) (next_pipe p) (env p) (history p)
           (log p ++ [CFork (next_pid p) cmd clog f; CWait x]) /\
    (children p = [] -> kids = [] /\ x = Z.of_nat (next_pid p)).
Proof.
  unfold sys_fork.
  destruct (body _) as [f clog]. cbn [snd].
  unfold sys_wait. proc_simpl.
  destruct (children p ++ [next_pid p]) as [|c cs] eqn:Ek.
  { by destruct (children p). }
  set (i := wait_pick W _ mod length (c :: cs)).
  exists clog, f, (Z.of_nat (nth i (c :: cs) c)), (delete i (c :: cs)).
  split; [by rewrite <- app_assoc|].
  intros Hc. rewrite Hc in Ek. injection Ek as <- <-.
  subst i. by rewrite Nat.mod_1_r.
Qed.

Lemma count_tag_fmap t l :
  count_tag t l = length (List.filter (fun x => tag_eqb x t) (tag_of <$> l)).
Proof.
  unfold count_tag. induction l as [|c l IH]; [done|].
  cbn. destruct (tag_eqb (tag_of c) t); cbn; by rewrite IH.
Qed.

Lemma count_turns n :
  length (List.filter (fun x => tag_eqb x TPipe) (turns n ++ [TFork; TWait])) = n /\
  length (List.filter (fun x => tag_eqb x TFork) (turns n ++ [TFork; TWait])) = S n /\
  length (List.filter (fun x => tag_eqb x TWait) (turns n ++ [TFork; TWait])) = S n.
Proof. induction n as [|n (IH1 & IH2 & IH3)]; cbn; [done|]. by rewrite IH1, IH2, IH3. Qed.

(** What the parent does for a line of one to nine stages. *)
Lemma execute_pipeline_run W line p :
  1 <= length (stages line) <= 9 ->
  exists p' new final,
    execute_pipeline W line p = Ok p' /\
    last (stages line) = Some final /\
    log p' = log p ++ new /\
    tag_of <$> new = turns (length (stages line)) ++ [TFork; TWait] /\
    launched new = (Some <$> stages line) ++ [Some final] /\
    size (fds p') = size (fds p) + length (stages line) /\
    read_ends_added (fds p) (fds p') /\
    (children p = [] -> children p' = [] /\ waited new = forked new).
Proof.
  unfold stages. intros [Hlo Hhi]. unfold execute_pipeline.
  destruct (strtok (Some line) "|" EmptyString) as [c0 save0] eqn:E.
  apply strtok_first in E as [-> Hrest].
  destruct (tokens "|" line) as [|s0 rest] eqn:Es; [simpl in Hlo; lia|].
  simpl in Hrest, Hhi. cbn [head].
  rewrite split_commands_run by (rewrite Hrest; lia). rewrite Hrest.
  cbn [res_bind].
  change ([Some s0] ++ (Some <$> rest) ++ [None])
    with ((Some <$> s0 :: rest) ++ [None]).
  set (all := s0 :: rest) in *.
  assert (Hlen : length ((Some <$> all) ++ [None]) = S (length all)).
  { rewrite length_app, length_fmap. simpl. lia. }
  rewrite Hlen.
  replace (S (length all) - 1) with (length (Some <$> all : list ptr))
    by (rewrite length_fmap; lia).
  rewrite take_app_length.
  assert (is_Some (last all)) as [final Elast] by (by apply last_is_Some).
  rewrite Elast.
  assert (Hfinal : ((Some <$> all) ++ [None]) !! (S (length all) - 2) = Some (Some final)).
  { rewrite lookup_app_l by (rewrite length_fmap; subst all; simpl; lia).
    rewrite list_lookup_fmap. rewrite last_lookup in Elast.
    replace (S (length all) - 2) with (pred (length all)) by lia.
    by rewrite Elast. }
  rewrite Hfinal.
  destruct (stage_loop_run W EmptyString (Some <$> all) 0 p)
    as (new & Hl & Ht & Hla & Hs & Hr & Hc).
  destruct (stage_loop W (Some <$> all) EmptyString 0 p) as [in_fd p1].
  cbn [snd] in *.
  destruct (parse_args (Some final) EmptyString) as [args sv].
  destruct (fork_then_wait W (Some final) (last_child W in_fd args) p1)
    as (clog & f & x & kids & Hfw & Hk).
  destruct (sys_fork (Some final) (last_child W in_fd args) p1) as [pid p2].
  cbn [snd] in Hfw. rewrite Hfw.
  exists (Proc (fds p1) kids (S (next_pid p1)) (next_pipe p1) (env p1) (history p1)
               (log p1 ++ [CFork (next_pid p1) (Some final) clog f; CWait x])),
         (new ++ [CFork (next_pid p1) (Some final) clog f; CWait x]), final.
  cbn [log fds children]. rewrite length_fmap in Ht, Hs.
  split; [done|]. split; [done|].
  split; [by rewrite Hl, <- app_assoc|].
  split; [by rewrite fmap_app, Ht|].
  split; [by unfold launched in *; rewrite omap_app, Hla|].
  split; [done|]. split; [done|].
  intros Hp. destruct (Hc Hp) as [Hc1 Hc2]. destruct (Hk Hc1) as [-> ->].
  split; [done|]. unfold waited, forked in *. rewrite !omap_app, Hc2. done.
Qed.

(** With ten stages or more the parent stores past [commands[9]]. *)
Lemma execute_pipeline_overrun W line p :
  10 <= length (stages line) -> execute_pipeline W line p = Fault OutOfBounds.
Proof.
  unfold stages. intros H. unfold execute_pipeline.
  destruct (strtok (Some line) "|" EmptyString) as [c0 save0] eqn:E.
  apply strtok_first in E as [-> Hrest].
  rewrite split_commands_overrun; [done|].
  rewrite Hrest. destruct (tokens "|" line); simpl in *; lia.
Qed.

(** C1, as the code has it: for a line of N stages the loop runs N times,
    not N-1: N pipes are created, N+1 children are forked, and the last
    stage is forked twice, once inside the loop and once after it. *)
Theorem execute_pipeline_pipes_and_forks W line p :
  1 <= length (stages line) <= 9 ->
  exists p' new final,
    execute_pipeline W line p = Ok p' /\
    log p' = log p ++ new /\
    last (stages line) = Some final /\
    count_tag TPipe new = length (stages line) /\
    count_tag TFork new = S (length (stages line)) /\
    launched new = (Some <$> stages line) ++ [Some final].
Proof.
  intros H.
  destruct (execute_pipeline_run W line p H)
    as (p' & new & final & Hrun & Hfin & Hl & Ht & Hla & _).
  exists p', new, final.
  destruct (count_turns (length (stages line))) as (C1 & C2 & _).
  by rewrite !count_tag_fmap, Ht, C1, C2.
Qed.

(** C2, as the code has it: the parent closes the write end of each pipe
    and never the read end, so after a line of N stages it holds N
    descriptors more than before, all of them read ends of pipes; the
    descriptors it held before are untouched. *)
Theorem execute_pipeline_leaves_read_ends W line p :
  1 <= length (stages line) <= 9 ->
  exists p',
    execute_pipeline W line p = Ok p' /\
    size (fds p') = size (fds p) + length (stages line) /\
    read_ends_added (fds p) (fds p').
Proof.
  intros H.
  destruct (execute_pipeline_run W line p H)
    as (p' & new & final & Hrun & _ & _ & _ & _ & Hs & Hr & _).
  by exists p'.
Qed.

(** *** Waits that do not return *)

(** Right after a fork the parent has a child: whether its wait returns is
    for the oracle to say. *)
Lemma wait_or_block_after_fork W returns cmd body p :
  wait_or_block W returns (sys_fork cmd body p).2
  = if returns (log (sys_fork cmd body p).2)
    then Some (sys_wait W (sys_fork cmd body p).2) else None.
Proof.
  unfold wait_or_block, sys_fork. destruct (body _) as [f clog].
  cbn [snd children emit]. by destruct (children p).
Qed.

(** What a pipe followed by a fork adds to the parent. *)
Lemma pipe_fork_log cmd body p :
  exists r w clog f,
    (sys_pipe p).1 = (r, w) /\
    log (sys_fork cmd (body r w) (sys_pipe p).2).2
      = log p ++ [CPipe r w; CFork (next_pid p) cmd clog f] /\
    children (sys_fork cmd (body r w) (sys_pipe p).2).2
      = children p ++ [next_pid p].
Proof.
  exists (sys_pipe p).1.1, (sys_pipe p).1.2.
  unfold sys_pipe, sys_fork. cbn [fst snd]. proc_simpl.
  destruct (body _ _ _) as [f clog]. cbn [snd]. proc_simpl.
  exists clog, f. by rewrite <- app_assoc.
Qed.

Lemma fork_log cmd body p :
  exists clog f,
    log (sys_fork cmd body p).2 = log p ++ [CFork (next_pid p) cmd clog f] /\
    children (sys_fork cmd body p).2 = children p ++ [next_pid p].
Proof.
  unfold sys_fork. destruct (body _) as [f clog]. cbn [snd]. proc_simpl.
  by eexists clog, f.
Qed.

(** The loop with waits that may block either goes all the way, as
    [stage_loop] does, or stops after the fork of some stage [k], the
    stages before it done as [stage_loop] does them, in a wait that does
    not return. *)
Lemma stage_loop_blocking_cases W returns save cmds : forall in_fd p,
  stage_loop_blocking W returns cmds save in_fd p
    = (Returned, (stage_loop W cmds save in_fd p).1,
       (stage_loop W cmds save in_fd p).2) \/
  exists k cmd,
    cmds !! k = Some cmd /\
    let q := stage_loop W (take k cmds) save in_fd p in
    let p2 :=
      (sys_fork cmd
         (stage_child W q.1 (sys_pipe q.2).1.1 (sys_pipe q.2).1.2 cmd save)
         (sys_pipe q.2).2).2 in
    stage_loop_blocking W returns cmds save in_fd p = (Blocked, q.1, p2) /\
    returns (log p2) = false.
Proof.
  induction cmds as [|cmd rest IH]; intros in_fd p; [by left|].
  cbn [stage_loop_blocking stage_loop].
  destruct (sys_pipe p) as [[r w] p1] eqn:Ep.
  pose proof (wait_or_block_after_fork W returns cmd
                (stage_child W in_fd r w cmd save) p1) as Hw.
  destruct (sys_fork cmd (stage_child W in_fd r w cmd save) p1) as [pid p2] eqn:Ef.
  cbn [snd] in Hw. rewrite Hw.
  destruct (returns (log p2)) eqn:Er.
  - destruct (IH (Z.of_nat r) (sys_close (Z.of_nat w) (sys_wait W p2)))
      as [H|(k & c & Hk & H & Hr)].
    + left. by rewrite H.
    + right. exists (S k), c. split; [done|].
      cbn [take stage_loop]. rewrite Ep, Ef. by split.
  - right. exists 0, cmd. split; [done|].
    cbn [take stage_loop fst snd]. rewrite Ep. cbn [fst snd]. rewrite Ef.
    by split.
Qed.

Lemma turns_app a b : turns (a + b) = turns a ++ turns b.
Proof. induction a as [|a IH]; [done|]. cbn. by rewrite IH. Qed.

Lemma omap_snoc_none {A B} (f : A -> option B) l x :
  f x = None -> omap f (l ++ [x]) = omap f l.
Proof. intros H. rewrite omap_app. cbn. rewrite H. by rewrite app_nil_r. Qed.

(** What the parent does for a line of one to nine stages when waits may
    not return. *)
Lemma execute_pipeline_blocking_run W returns line p :
  1 <= length (stages line) <= 9 ->
  exists pr p' new rest,
    execute_pipeline_blocking W returns line p = Ok (pr, p') /\
    log p' = log p ++ new /\
    turns (length (stages line)) ++ [TFork; TWait] = (tag_of <$> new) ++ rest /\
    match pr with
    | Returned => execute_pipeline W line p = Ok p' /\ rest = []
    | Blocked =>
        (exists rest', rest = TWait :: rest') /\
        returns (log p') = false /\
        (children p = [] ->
         exists pid, children p' = [pid] /\
                     forked new = waited new ++ [Z.of_nat pid])
    end.
Proof.
  unfold stages. intros [Hlo Hhi].
  unfold execute_pipeline_blocking, execute_pipeline.
  destruct (strtok (Some line) "|" EmptyString) as [c0 save0] eqn:E.
  apply strtok_first in E as [-> Hrest].
  destruct (tokens "|" line) as [|s0 more] eqn:Es; [simpl in Hlo; lia|].
  simpl in Hrest, Hhi. cbn [head].
  rewrite split_commands_run by (rewrite Hrest; lia). rewrite Hrest.
  cbn [res_bind].
  change ([Some s0] ++ (Some <$> more) ++ [None])
    with ((Some <$> s0 :: more) ++ [None]).
  set (all := s0 :: more) in *.
  assert (Hlen : length ((Some <$> all) ++ [None]) = S (length all)).
  { rewrite length_app, length_fmap. simpl. lia. }
  rewrite Hlen.
  replace (S (length all) - 1) with (length (Some <$> all : list ptr))
    by (rewrite length_fmap; lia).
  rewrite take_app_length.
  assert (is_Some (last all)) as [final Elast] by (by apply last_is_Some).
  assert (Hfinal : ((Some <$> all) ++ [None]) !! (S (length all) - 2) = Some (Some final)).
  { rewrite lookup_app_l by (rewrite length_fmap; subst all; simpl; lia).
    rewrite list_lookup_fmap. rewrite last_lookup in Elast.
    replace (S (length all) - 2) with (pred (length all)) by lia.
    by rewrite Elast. }
  rewrite Hfinal.
  destruct (stage_loop_blocking_cases W returns EmptyString (Some <$> all) 0 p)
    as [->|(k & cmd & Hk & Hb & Hr)].
  - (* the loop went all the way *)
    destruct (stage_loop_run W EmptyString (Some <$> all) 0 p)
      as (new & Hl & Ht & _ & _ & _ & Hc).
    destruct (stage_loop W (Some <$> all) EmptyString 0 p) as [in_fd p1].
    cbn [fst snd] in *. rewrite length_fmap in Ht.
    destruct (parse_args (Some final) EmptyString) as [args sv].
    pose proof (wait_or_block_after_fork W returns (Some final)
                  (last_child W in_fd args) p1) as Hw.
    destruct (fork_log (Some final) (last_child W in_fd args) p1)
      as (clog & f & Hfl & Hfc).
    destruct (fork_then_wait W (Some final) (last_child W in_fd args) p1)
      as (clog' & f' & x & kids & Hfw & _).
    destruct (sys_fork (Some final) (last_child W in_fd args) p1) as [pid p2].
    cbn [snd] in *. rewrite Hw. destruct (returns (log p2)) eqn:Er.
    + exists Returned, (sys_wait W p2),
        (new ++ [CFork (next_pid p1) (Some final) clog' f'; CWait x]), [].
      split; [done|]. rewrite Hfw. cbn [log].
      split; [by rewrite Hl, <- app_assoc|].
      split; [by rewrite fmap_app, Ht, app_nil_r|]. done.
    + exists Blocked, p2, (new ++ [CFork (next_pid p1) (Some final) clog f]), [TWait].
      split; [done|]. rewrite Hfl.
      split; [by rewrite Hl, <- app_assoc|].
      split; [by rewrite fmap_app, Ht, <- app_assoc|].
      split; [by eexists|]. split; [by rewrite <- Hfl|].
      intros Hp. destruct (Hc Hp) as [Hc1 Hc2]. exists (next_pid p1).
      rewrite Hfc, Hc1. split; [done|].
      unfold forked, waited in *. rewrite omap_app, omap_snoc_none by done.
      by rewrite Hc2.
  - (* a wait of the loop does not return *)
    cbn zeta in Hb, Hr. rewrite Hb.
    assert (Hkl : k < length all).
    { apply lookup_lt_Some in Hk. by rewrite length_fmap in Hk. }
    destruct (stage_loop_run W EmptyString (take k (Some <$> all)) 0 p)
      as (new & Hl & Ht & _ & _ & _ & Hc).
    rewrite length_take, length_fmap, Nat.min_l in Ht by lia.
    destruct (stage_loop W (take k (Some <$> all)) EmptyString 0 p) as [in_fd q].
    cbn [fst snd] in *.
    destruct (pipe_fork_log cmd (fun r w => stage_child W in_fd r w cmd EmptyString) q)
      as (r & w & clog & f & Hrw & Hpl & Hpc).
    rewrite Hrw in *. cbn [fst snd] in *.
    set (p2 := (sys_fork cmd _ _).2) in *.
    exists Blocked, p2, (new ++ [CPipe r w; CFork (next_pid q) cmd clog f]),
      (TWait :: TClose :: turns (length all - S k) ++ [TFork; TWait]).
    split; [done|]. rewrite Hpl.
    split; [by rewrite Hl, <- app_assoc|].
    split.
    { replace (length all) with (k + S (length all - S k)) at 1 by lia.
      rewrite turns_app, fmap_app, Ht. cbn. by rewrite <- !app_assoc. }
    split; [by eexists|]. split; [by rewrite <- Hpl|].
    intros Hp. destruct (Hc Hp) as [Hc1 Hc2]. exists (next_pid q).
    rewrite Hpc, Hc1. split; [done|].
    unfold forked, waited in *. rewrite !omap_app. cbn. by rewrite Hc2, app_nil_r.
Qed.

(** With waits that all return, [execute_pipeline_blocking] is
    [execute_pipeline]. *)
Lemma execute_pipeline_blocking_patient W returns line p pr p' :
  (forall l, returns l = true) ->
  1 <= length (stages line) <= 9 ->
  execute_pipeline_blocking W returns line p = Ok (pr, p') ->
  pr = Returned /\ execute_pipeline W line p = Ok p'.
Proof.
  intros Hall Hn E.
  destruct (execute_pipeline_blocking_run W returns line p Hn)
    as (pr' & q & new & rest & E' & _ & _ & H).
  rewrite E in E'. injection E' as <- <-.
  destruct pr; [by destruct H|].
  destruct H as (_ & Hr & _). by rewrite Hall in Hr.
Qed.


(** ** shell_loop *)

Lemma count_args_cells toks tail :
  count_args ((Some <$> toks) ++ None :: tail) = Ok (length toks).
Proof. induction toks as [|t rest IH]; csimpl; [done|]. by rewrite IH. Qed.

(** The path of a single command: a last token [&] is overwritten with
    NULL, the command is forked without that token, and the shell goes back
    to the loop without a [waitpid]. *)
Lemma run_simple_background W line p front :
  words line = front ++ ["&"] ->
  length (words line) < MAX_ARGS ->
  let args := (Some <$> front) ++ [None; None] in
  handle_builtin W args p = Ok None ->
  run_simple W line p
  = Ok (Next, true, (sys_fork (Some line) (simple_child W args) p).2) /\
  forall c, simple_child W args c
            = exec_or_exit W (erase front ++ [None; None]) (redirect_all W front c).
Proof.
  intros Htoks Hshort args Hb. split.
  - unfold run_simple.
    destruct (parse_args (Some line) EmptyString) as [cells sv] eqn:E.
    assert (Hcells : cells = (Some <$> front) ++ [Some "&"; None]).
    { pose proof (parse_args_short line EmptyString Hshort) as H.
      rewrite E, Htoks, fmap_app, <- app_assoc in H. exact H. }
    assert (Hcount : count_args cells = Ok (S (length front))).
    { pose proof (count_args_cells (front ++ ["&"]) []) as H.
      rewrite fmap_app, <- app_assoc, length_app in H. simpl in H.
      rewrite Hcells, H. f_equal. lia. }
    rewrite Hcount. cbn [res_bind].
    replace (S (length front) - 1) with (length (Some <$> front : list ptr) + 0)
      by (rewrite length_fmap; lia).
    rewrite Hcells, lookup_app_r, insert_app_r by lia.
    replace (length (Some <$> front) + 0 - length (Some <$> front)) with 0 by lia.
    rewrite (bool_decide_eq_true_2 (0 < S (length front))) by lia.
    rewrite (bool_decide_eq_true_2 (_ !! 0 = _)) by done.
    cbn. fold args. rewrite Hb. cbn.
    by destruct (sys_fork _ _ _).
  - intros c. subst args. unfold simple_child, run_command.
    by rewrite (handle_redirection_run_tail W front [None] c).
Qed.

(** C10: an input that is empty once its newline is cut leaves the shell as
    it was: nothing is added to the history, no [getenv] and no fork is
    logged, and the loop goes on with the next input. *)
Theorem shell_body_empty_line W input rest p :
  trim_newline input = EmptyString ->
  shell_body W input p = Ok (Next, p) /\
  shell_loop W (input :: rest) p = shell_loop W rest p.
Proof.
  intros H.
  assert (Hb : shell_body W input p = Ok (Next, p)).
  { unfold shell_body. rewrite H. done. }
  split; [done|]. cbn [shell_loop]. by rewrite Hb.
Qed.

(** The inputs that are empty once the newline is cut. *)
Lemma trim_newline_empty input :
  trim_newline input = EmptyString <->
  input = EmptyString \/ exists s, input = String (ascii_of_nat 10) s.
Proof.
  unfold trim_newline. destruct input as [|c s]; simpl.
  - split; [by left|done].
  - destruct (is_delim newline c) eqn:E.
    + split; [|done]. intros _. right. exists s. f_equal.
      unfold is_delim, newline in E. simpl in E.
      rewrite orb_false_r in E. by apply Ascii.eqb_eq in E.
    + destruct (strcspn_split newline s). simpl. split; [done|].
      intros [?|[s' [= -> _]]]; [done|].
      by vm_compute in E.
Qed.

(** C4, as the code has it: a line with a pipe separator is handed to
    [execute_pipeline] before the [&] test is reached; the stage texts go
    to the children as they are, a last token [&] included, and the shell
    waits once per fork before it goes back to the loop. *)
Theorem pipeline_line_is_waited_for W input p line' p2 :
  trim_newline input <> EmptyString ->
  expand_variables (trim_newline input) (add_history (trim_newline input) p)
    = Ok (line', p2) ->
  has_char bar line' = true ->
  1 <= length (stages line') <= 9 ->
  exists p' new final,
    shell_body W input p = Ok (Next, p') /\
    log p' = log p2 ++ new /\
    last (stages line') = Some final /\
    launched new = (Some <$> stages line') ++ [Some final] /\
    count_tag TWait new = S (length (stages line')).
Proof.
  intros Hne He Hbar Hn.
  destruct (execute_pipeline_run W line' p2 Hn)
    as (p' & new & final & Hrun & Hfin & Hl & Ht & Hla & _).
  exists p', new, final.
  destruct (count_turns (length (stages line'))) as (_ & _ & C3).
  rewrite count_tag_fmap, Ht, C3.
  split; [|done].
  unfold shell_body. case_decide as Hz.
  { destruct (trim_newline input); [done|simpl in Hz; lia]. }
  rewrite He. cbn [res_bind]. rewrite Hbar, Hrun. done.
Qed.

(** ** The theorems at work on concrete lines *)

(** C9 at a line of two words and at a line of MAX_ARGS words. *)
Lemma parse_args_writes_witness :
  (length (words "ls -l") <= MAX_ARGS - 1 /\
   (parse_args (Some "ls -l") EmptyString).1 = [Some "ls"; Some "-l"; None]) /\
  (MAX_ARGS <= length (words (many 128)) /\
   length (parse_args (Some (many 128)) EmptyString).1 = MAX_ARGS /\
   None ∉ (parse_args (Some (many 128)) EmptyString).1).
Proof.
  split.
  - assert (H : length (words "ls -l") <= MAX_ARGS - 1) by (vm_compute; lia).
    split; [exact H|].
    exact (proj1 (parse_args_writes "ls -l" EmptyString) H).
  - assert (H : MAX_ARGS <= length (words (many 128))) by (vm_compute; lia).
    split; [exact H|].
    exact (proj2 (proj2 (proj2 (parse_args_writes (many 128) EmptyString)) H)).
Defined.

(** C9 as the specification words it, with tokens separated by white
    space, fails at [ls], a tab, [-l]: two tokens for the specification,
    one cell for [parse_args], which cuts at spaces only. *)
Lemma parse_args_not_whitespace :
  ~ (forall line save,
       length (whitespace_tokens line) <= MAX_ARGS - 1 ->
       (parse_args (Some line) save).1
       = (Some <$> whitespace_tokens line) ++ [None]).
Proof.
  intros H.
  assert (Hlen : length (whitespace_tokens ls_tab_l) <= MAX_ARGS - 1)
    by (vm_compute; lia).
  specialize (H ls_tab_l EmptyString Hlen). vm_compute in H. discriminate.
Qed.

(** C1 at [ls|wc]: two pipes and three forks, [wc] forked twice. *)
Lemma execute_pipeline_pipes_and_forks_witness :
  1 <= length (stages "ls|wc") <= 9 /\
  exists p' new final,
    execute_pipeline generous "ls|wc" fresh_shell = Ok p' /\
    log p' = log fresh_shell ++ new /\
    last (stages "ls|wc") = Some final /\
    count_tag TPipe new = 2 /\
    count_tag TFork new = 3 /\
    launched new = [Some "ls"; Some "wc"; Some final].
Proof.
  assert (H : 1 <= length (stages "ls|wc") <= 9) by (vm_compute; lia).
  split; [exact H|].
  exact (execute_pipeline_pipes_and_forks generous "ls|wc" fresh_shell H).
Defined.

(** C2 at [ls|wc]: five descriptors open afterwards instead of three. *)
Lemma execute_pipeline_leaves_read_ends_witness :
  1 <= length (stages "ls|wc") <= 9 /\
  exists p',
    execute_pipeline generous "ls|wc" fresh_shell = Ok p' /\
    size (fds p') = size (fds fresh_shell) + 2 /\
    read_ends_added (fds fresh_shell) (fds p').
Proof.
  assert (H : 1 <= length (stages "ls|wc") <= 9) by (vm_compute; lia).
  split; [exact H|].
  exact (execute_pipeline_leaves_read_ends generous "ls|wc" fresh_shell H).
Defined.


(** [yes|head -1] when [yes] never ends, its pipe being full and unread:
    the parent has made a pipe and forked [yes], and that is all; [head] is
    never forked. *)
Example first_wait_blocks :
  exists p',
    execute_pipeline_blocking generous stuck "yes|head -1" fresh_shell
      = Ok (Blocked, p') /\
    tag_of <$> log p' = [TPipe; TFork] /\
    launched (log p') = [Some "yes"] /\
    children p' = [100].
Proof. eexists. split; [vm_compute; reflexivity|]. by vm_compute. Qed.


(** With a background job around, a wait may return that job, and
    [execute_pipeline] returns while its last child has not been waited
    for. *)
Example busy_shell_returns_early :
  exists p',
    execute_pipeline generous "ls|wc" busy_shell = Ok p' /\
    forked (log p') = [100; 101; 102]%Z /\
    waited (log p') = [7; 100; 101]%Z /\
    children p' = [102].
Proof. eexists. split; [vm_compute; reflexivity|]. by vm_compute. Qed.

(** C4 at [sleep 5 | cat &]. *)
Lemma pipeline_line_is_waited_for_witness :
  (trim_newline "sleep 5 | cat &" <> EmptyString /\
   expand_variables (trim_newline "sleep 5 | cat &")
     (add_history (trim_newline "sleep 5 | cat &") fresh_shell)
   = Ok ("sleep 5 | cat &", add_history "sleep 5 | cat &" fresh_shell) /\
   has_char bar "sleep 5 | cat &" = true /\
   1 <= length (stages "sleep 5 | cat &") <= 9) /\
  exists p' new final,
    shell_body generous "sleep 5 | cat &" fresh_shell = Ok (Next, p') /\
    log p' = log (add_history "sleep 5 | cat &" fresh_shell) ++ new /\
    last (stages "sleep 5 | cat &") = Some final /\
    launched new = [Some "sleep 5 "; Some " cat &"; Some final] /\
    count_tag TWait new = 3.
Proof.
  assert (H1 : trim_newline "sleep 5 | cat &" <> EmptyString) by (vm_compute; discriminate).
  assert (H2 : expand_variables (trim_newline "sleep 5 | cat &")
                 (add_history (trim_newline "sleep 5 | cat &") fresh_shell)
               = Ok ("sleep 5 | cat &", add_history "sleep 5 | cat &" fresh_shell))
    by (vm_compute; reflexivity).
  assert (H3 : has_char bar "sleep 5 | cat &" = true) by (vm_compute; reflexivity).
  assert (H4 : 1 <= length (stages "sleep 5 | cat &") <= 9) by (vm_compute; lia).
  split; [exact (conj H1 (conj H2 (conj H3 H4)))|].
  exact (pipeline_line_is_waited_for generous "sleep 5 | cat &" fresh_shell _ _ H1 H2 H3 H4).
Defined.

(** What the two children of [cat &] are started with, and what the shell
    has done when it is back in the loop. *)
Example pipeline_background_run :
  exists p',
    shell_body generous "sleep 5 | cat &" fresh_shell = Ok (Next, p') /\
    programs (log p') = [["sleep"; "5"]; ["cat"; "&"]; ["cat"; "&"]] /\
    tag_of <$> log p'
      = [TPipe; TFork; TWait; TClose; TPipe; TFork; TWait; TClose; TFork; TWait].
Proof. eexists. split; [vm_compute; reflexivity|]. by vm_compute. Qed.

(** The same [&] after a single command: no wait, no [&] in the vector. *)
Example simple_background_run :
  exists p',
    shell_body generous "sleep 5 &" fresh_shell = Ok (Next, p') /\
    programs (log p') = [["sleep"; "5"]] /\
    tag_of <$> log p' = [TFork] /\
    children p' = [100].
Proof. eexists. split; [vm_compute; reflexivity|]. by vm_compute. Qed.

(** C5 at [cat >]. *)
Lemma trailing_redirection_opens_null_witness :
  (length (words "cat >") < MAX_ARGS /\
   words "cat >" = ["cat"] ++ [">"] /\ redir_of ">" = Some ROut) /\
  exists args' p' new,
    handle_redirection generous (parse_args (Some "cat >") EmptyString).1 fresh_shell
      = Ok (args', p') /\
    log p' = log fresh_shell ++ new /\
    last (requests new) = Some (None, [O_WRONLY; O_CREAT; O_TRUNC], Some mode_0644) /\
    count_tag TPerror new = failed_opens 0 new.
Proof.
  assert (H1 : length (words "cat >") < MAX_ARGS) by (vm_compute; lia).
  assert (H2 : words "cat >" = ["cat"] ++ [">"]) by reflexivity.
  assert (H3 : redir_of ">" = Some ROut) by reflexivity.
  split; [exact (conj H1 (conj H2 H3))|].
  exact (trailing_redirection_opens_null generous "cat >" EmptyString fresh_shell
           H1 ["cat"] ">" ROut H2 H3).
Defined.

(** The three kinds of trailing redirection: [open] is given NULL each
    time, and only [<] says so. *)
Example trailing_redirection_runs :
  (run_command generous (parse_args (Some "cat >") EmptyString).1 fresh_shell).2
    = [COpen None [O_WRONLY; O_CREAT; O_TRUNC] (Some mode_0644) (-1);
       CDup2 (-1) 1 (-1); CClose (-1) (-1)] /\
  (run_command generous (parse_args (Some "cat >>") EmptyString).1 fresh_shell).2
    = [COpen None [O_WRONLY; O_CREAT; O_APPEND] (Some mode_0644) (-1);
       CDup2 (-1) 1 (-1); CClose (-1) (-1)] /\
  (run_command generous (parse_args (Some "cat <") EmptyString).1 fresh_shell).2
    = [COpen None [O_RDONLY] None (-1); CPerror "open";
       CDup2 (-1) 0 (-1); CClose (-1) (-1)].
Proof. by vm_compute. Qed.

(** C6 at [echo hi > /no/such/dir/f] where no file can be opened: one
    failed open for stdout, no diagnostic, and [echo] is started. *)
Lemma handle_redirection_diagnostics_witness :
  length (words "echo hi > /no/such/dir/f") < MAX_ARGS /\
  exists args' p' new,
    handle_redirection no_files
      (parse_args (Some "echo hi > /no/such/dir/f") EmptyString).1 fresh_shell
      = Ok (args', p') /\
    log p' = log fresh_shell ++ new /\
    count_tag TPerror new = failed_opens 0 new /\
    run_command no_files
      (parse_args (Some "echo hi > /no/such/dir/f") EmptyString).1 fresh_shell
      = exec_or_exit no_files args' p' /\
    failed_opens 1 new = 1 /\ count_tag TPerror new = 0.
Proof.
  assert (H : length (words "echo hi > /no/such/dir/f") < MAX_ARGS)
    by (vm_compute; lia).
  split; [exact H|].
  destruct (handle_redirection_diagnostics no_files "echo hi > /no/such/dir/f"
              EmptyString fresh_shell H)
    as (args' & p' & new & E & Hl & Hp & Hr).
  assert (F : failed_opens 1 new = 1 /\ count_tag TPerror new = 0).
  { vm_compute in E. injection E as _ <-. cbn in Hl. subst new. by vm_compute. }
  exists args', p', new.
  exact (conj E (conj Hl (conj Hp (conj Hr F)))).
Defined.

(** The failed [>] is silent and the failed [<] is not; both commands are
    started all the same. *)
Example failed_redirection_runs :
  run_command no_files (parse_args (Some "echo hi > /no/such/dir/f") EmptyString).1
    fresh_shell
  = (Runs "echo" ["echo"; "hi"] std_fds,
     [COpen (Some "/no/such/dir/f") [O_WRONLY; O_CREAT; O_TRUNC] (Some mode_0644) (-1);
      CDup2 (-1) 1 (-1); CClose (-1) (-1)]) /\
  run_command no_files (parse_args (Some "cat < missing.txt") EmptyString).1
    fresh_shell
  = (Runs "cat" ["cat"] std_fds,
     [COpen (Some "missing.txt") [O_RDONLY] None (-1); CPerror "open";
      CDup2 (-1) 0 (-1); CClose (-1) (-1)]).
Proof. by vm_compute. Qed.

(** C7 at [cat > out.txt -n]: [cat] is started without [-n]. *)
Lemma handle_redirection_argv_witness :
  length (words "cat > out.txt -n") < MAX_ARGS /\
  exists p',
    handle_redirection generous (parse_args (Some "cat > out.txt -n") EmptyString).1
      fresh_shell
      = Ok ([Some "cat"; None; Some "out.txt"; Some "-n"; None], p') /\
    argv_of [Some "cat"; None; Some "out.txt"; Some "-n"; None] = Ok ["cat"] /\
    (run_command generous (parse_args (Some "cat > out.txt -n") EmptyString).1
       fresh_shell).1
    = Runs "cat" ["cat"] (fds p').
Proof.
  assert (H : length (words "cat > out.txt -n") < MAX_ARGS) by (vm_compute; lia).
  split; [exact H|].
  destruct (handle_redirection_argv generous "cat > out.txt -n" EmptyString fresh_shell H)
    as (p' & E & Ha & Hr).
  exists p'. exact (conj E (conj Ha (Hr "cat" [] eq_refl))).
Defined.

(** C7 as the specification words it fails at [cat > out.txt -n]: [-n]
    follows the redirection and is not passed to [cat]. *)
Lemma not_all_remaining_tokens_passed :
  ~ (forall W line p file argv tbl l,
       run_command W (parse_args (Some line) EmptyString).1 p = (Runs file argv tbl, l) ->
       argv = strip_redirections false (words line)).
Proof.
  intros H.
  destruct (run_command generous (parse_args (Some "cat > out.txt -n") EmptyString).1
              fresh_shell) as [f l] eqn:E.
  vm_compute in E. injection E as <- <-.
  specialize (H generous "cat > out.txt -n" fresh_shell _ _ _ _ eq_refl).
  vm_compute in H. discriminate.
Qed.

(** C8 at [sort < in.txt > a.txt >> b.txt], all files opening: stdin ends
    on [in.txt], stdout on [b.txt], the later of its two redirections. *)
Lemma handle_redirection_opens_witness :
  (length (words "sort < in.txt > a.txt >> b.txt") < MAX_ARGS /\
   is_Some (fds fresh_shell !! 0) /\ is_Some (fds fresh_shell !! 1)) /\
  exists args' p' new,
    handle_redirection generous
      (parse_args (Some "sort < in.txt > a.txt >> b.txt") EmptyString).1 fresh_shell
      = Ok (args', p') /\
    log p' = log fresh_shell ++ new /\
    requests new
      = [(Some "in.txt", [O_RDONLY], None);
         (Some "a.txt", [O_WRONLY; O_CREAT; O_TRUNC], Some 420);
         (Some "b.txt", [O_WRONLY; O_CREAT; O_APPEND], Some 420)] /\
    (failed_opens 0 new = 0 /\ failed_opens 1 new = 0) /\
    fds p' !! 0 = Some (File "in.txt" [O_RDONLY]) /\
    fds p' !! 1 = Some (File "b.txt" [O_WRONLY; O_CREAT; O_APPEND]) /\
    fds p' !! 2 = Some (Inherited 2).
Proof.
  assert (H : length (words "sort < in.txt > a.txt >> b.txt") < MAX_ARGS)
    by (vm_compute; lia).
  assert (H0 : is_Some (fds fresh_shell !! 0)) by (by eexists).
  assert (H1 : is_Some (fds fresh_shell !! 1)) by (by eexists).
  split; [exact (conj H (conj H0 H1))|].
  destruct (handle_redirection_opens generous "sort < in.txt > a.txt >> b.txt"
              EmptyString fresh_shell H)
    as (args' & p' & new & E & Hl & Hr & Hf).
  destruct (Hf H0 H1) as [_ Hall].
  assert (F : failed_opens 0 new = 0 /\ failed_opens 1 new = 0).
  { vm_compute in E. injection E as _ <-. cbn in Hl. subst new. by vm_compute. }
  exists args', p', new.
  exact (conj E (conj Hl (conj Hr (conj F
    (conj (Hall (proj1 F) (proj2 F) 0)
      (conj (Hall (proj1 F) (proj2 F) 1) (Hall (proj1 F) (proj2 F) 2))))))).
Defined.

(** C8 as the specification words it, "the last one wins" whatever
    happens, fails at [cat > a.txt > b.txt] where [b.txt] cannot be opened:
    standard output stays on [a.txt]. *)
Lemma last_redirection_may_lose :
  ~ (forall W line save p args' p' s d,
       length (words line) < MAX_ARGS ->
       handle_redirection W (parse_args (Some line) save).1 p = Ok (args', p') ->
       last (wanted s (redirs (words line))) = Some d ->
       fds p' !! s = Some d).
Proof.
  intros H.
  destruct (handle_redirection only_a
              (parse_args (Some "cat > a.txt > b.txt") EmptyString).1 fresh_shell)
    as [[args' p']|] eqn:E; [|vm_compute in E; discriminate].
  assert (Hshort : length (words "cat > a.txt > b.txt") < MAX_ARGS)
    by (vm_compute; lia).
  specialize (H only_a "cat > a.txt > b.txt" EmptyString fresh_shell args' p' 1
                (File "b.txt" [O_WRONLY; O_CREAT; O_TRUNC]) Hshort E eq_refl).
  revert H. vm_compute in E. injection E as _ <-. vm_compute. discriminate.
Qed.

(** Two output redirections: the second wins when it opens, the first stays
    when the second does not. *)
Example last_redirection_wins :
  (exists l, run_command generous (parse_args (Some "ls > a.txt > b.txt") EmptyString).1
               fresh_shell
             = (Runs "ls" ["ls"]
                  (<[1 := File "b.txt" [O_WRONLY; O_CREAT; O_TRUNC]]> std_fds), l)) /\
  (exists l, run_command only_a (parse_args (Some "ls > a.txt > b.txt") EmptyString).1
               fresh_shell
             = (Runs "ls" ["ls"]
                  (<[1 := File "a.txt" [O_WRONLY; O_CREAT; O_TRUNC]]> std_fds), l)).
Proof. split; eexists; vm_compute; reflexivity. Qed.

(** C10 at a line holding only a newline. *)
Lemma shell_body_empty_line_witness :
  trim_newline newline = EmptyString /\
  shell_body generous newline fresh_shell = Ok (Next, fresh_shell) /\
  shell_loop generous [newline; "ls"] fresh_shell
  = shell_loop generous ["ls"] fresh_shell.
Proof.
  assert (H : trim_newline newline = EmptyString) by reflexivity.
  split; [exact H|].
  exact (shell_body_empty_line generous newline ["ls"] fresh_shell H).
Defined.

(** By contrast, a line that is not empty is recorded and run. *)
Example shell_body_command_line :
  exists p',
    shell_body generous "ls" fresh_shell = Ok (Next, p') /\
    history p' = ["ls"] /\ tag_of <$> log p' = [TFork; TWait].
Proof. eexists. split; [vm_compute; reflexivity|]. by vm_compute. Qed.

(** MAX_ARGS tokens leave [args] without its NULL, and the loops that look
    for it run off the array. *)
Example unterminated_args_overrun :
  handle_redirection generous (parse_args (Some (many 128)) EmptyString).1 fresh_shell
    = Fault OutOfBounds /\
  shell_body generous (many 128) fresh_shell = Fault OutOfBounds.
Proof. by vm_compute. Qed.

(** A line without any stage, such as a lone [|]: one pipe all the same,
    and two children that hand [execvp] a NULL name. *)
Example empty_pipeline_run :
  exists p',
    execute_pipeline generous "|" fresh_shell = Ok p' /\
    stages "|" = [] /\
    tag_of <$> log p' = [TPipe; TFork; TWait; TClose; TFork; TWait] /\
    launched (log p') = [None; None] /\
    programs (log p') = [].
Proof. eexists. split; [vm_compute; reflexivity|]. by vm_compute. Qed.

(** * The rest of the file

    ** Texts *)

Lemma append_cons_s x (a b : string) :
  String.append (String x a) b = String x (String.append a b).
Proof. reflexivity. Qed.

Lemma append_nil_l_s (a : string) : String.append EmptyString a = a.
Proof. reflexivity. Qed.

Lemma append_assoc_s (a b c : string) :
  String.append (String.append a b) c = String.append a (String.append b c).
Proof. induction a as [|x a IH]; [done|]. by rewrite !append_cons_s, IH. Qed.

Lemma append_nil_s (a : string) : String.append a EmptyString = a.
Proof. induction a as [|x a IH]; [done|]. by rewrite append_cons_s, IH. Qed.

Lemma length_append_s (a b : string) :
  String.length (String.append a b) = String.length a + String.length b.
Proof. induction a as [|x a IH]; [done|]. rewrite append_cons_s. simpl. by rewrite IH. Qed.

Lemma has_char_cons c x s :
  has_char c (String x s) = Ascii.eqb c x || has_char c s.
Proof. reflexivity. Qed.

Lemma has_char_append c a b :
  has_char c (String.append a b) = has_char c a || has_char c b.
Proof.
  unfold has_char. induction a as [|x a IH]; [done|].
  rewrite append_cons_s. simpl. rewrite IH. by rewrite Bool.orb_assoc.
Qed.

(** ** Processes that only make calls *)

Lemma only_logged_refl p : only_logged p p.
Proof. repeat split. exists []. by rewrite app_nil_r. Qed.

Lemma only_logged_trans p q r :
  only_logged p q -> only_logged q r -> only_logged p r.
Proof.
  intros (F1 & C1 & E1 & H1 & n1 & L1) (F2 & C2 & E2 & H2 & n2 & L2).
  repeat split; try congruence.
  exists (n1 ++ n2). by rewrite L2, L1, <- app_assoc.
Qed.

Lemma only_logged_emit c p : only_logged p (emit c p).
Proof. repeat split. by exists [c]. Qed.

(** ** strtok and parse_args: what a word is *)

Lemma fields_no_delim delim s f :
  f ∈ fields delim s ->
  forallb (fun c => negb (is_delim delim c)) (list_ascii_of_string f) = true.
Proof.
  revert f. induction s as [|c s IH]; simpl; intros f Hf.
  - apply list_elem_of_singleton in Hf as ->. done.
  - destruct (is_delim delim c) eqn:E.
    + apply elem_of_cons in Hf as [->|Hf]; [done|]. by apply IH.
    + destruct (fields delim s) as [|g gs] eqn:Eg.
      * apply list_elem_of_singleton in Hf as ->. simpl. by rewrite E.
      * apply elem_of_cons in Hf as [->|Hf].
        -- simpl. rewrite E. simpl. apply IH. by left.
        -- apply IH. by right.
Qed.

Lemma tokens_shape delim s t :
  t ∈ tokens delim s ->
  t <> EmptyString /\
  forallb (fun c => negb (is_delim delim c)) (list_ascii_of_string t) = true.
Proof.
  unfold tokens. intros H. apply list_elem_of_In in H.
  apply List.filter_In in H as [Hf Hn]. apply list_elem_of_In in Hf.
  split; [by destruct t|]. by apply (fields_no_delim delim s).
Qed.

Lemma no_delim_has_char c t :
  forallb (fun x => negb (is_delim (String c EmptyString) x)) (list_ascii_of_string t)
    = true ->
  has_char c t = false.
Proof.
  unfold has_char, is_delim. simpl.
  induction (list_ascii_of_string t) as [|x l IH]; simpl; [done|].
  rewrite orb_false_r, andb_true_iff, negb_true_iff. intros [Hx Hl].
  rewrite IH by done. rewrite orb_false_r.
  rewrite Ascii.eqb_sym. exact Hx.
Qed.

(** X1: Whatever the line, every argument [parse_args] stores is a non-empty
    text without a space: spaces always separate, there is no quoting and
    no empty argument. *)
Theorem parse_args_words_shape line save a :
  Some a ∈ (parse_args (Some line) save).1 ->
  a ∈ words line /\ a <> EmptyString /\ has_char " " a = false.
Proof.
  rewrite parse_args_cells. intros Hin.
  assert (Ha : a ∈ words line).
  { apply elem_of_app in Hin as [Hin|Hin].
    - apply list_elem_of_fmap in Hin as (x & [= ->] & Hx).
      unfold words. by eapply subseteq_take.
    - case_decide; [|by apply not_elem_of_nil in Hin].
      by apply list_elem_of_singleton in Hin. }
  split; [done|].
  destruct (tokens_shape " " line a Ha) as [Hne Hnd].
  split; [done|]. by apply no_delim_has_char.
Qed.

(** ** trim_newline *)

Lemma strcspn_split_cut delim s :
  forallb (fun c => negb (is_delim delim c))
          (list_ascii_of_string (strcspn_split delim s).1) = true /\
  match (strcspn_split delim s).2 with
  | None => s = (strcspn_split delim s).1
  | Some r =>
      exists d, is_delim delim d = true /\
                s = String.append (strcspn_split delim s).1 (String d r)
  end.
Proof.
  induction s as [|c s [IH1 IH2]]; simpl; [done|].
  destruct (is_delim delim c) eqn:E; simpl.
  - split; [done|]. by exists c.
  - destruct (strcspn_split delim s) as [t r]. simpl in *.
    rewrite E. split; [done|].
    destruct r as [r|]; [|by f_equal].
    destruct IH2 as (d & Hd & ->). by exists d.
Qed.

Lemma is_delim_newline d :
  is_delim newline d = true -> d = ascii_of_nat 10.
Proof.
  unfold is_delim, newline. simpl. rewrite orb_false_r. apply Ascii.eqb_eq.
Qed.

(** X2: [trim_newline] keeps the text in front of the first newline and drops
    that newline with everything after it: the result holds no newline,
    and a line without newline is returned as it is. *)
Theorem trim_newline_cut input :
  has_char (ascii_of_nat 10) (trim_newline input) = false /\
  (has_char (ascii_of_nat 10) input = false -> trim_newline input = input) /\
  (input = trim_newline input \/
   exists rest,
     input = String.append (trim_newline input) (String (ascii_of_nat 10) rest)).
Proof.
  unfold trim_newline.
  destruct (strcspn_split_cut newline input) as [Hno Hcut].
  assert (H1 : has_char (ascii_of_nat 10) (strcspn_split newline input).1 = false)
    by (by apply no_delim_has_char).
  split; [done|].
  destruct (strcspn_split newline input).2 as [r|].
  - destruct Hcut as (d & Hd & Heq). apply is_delim_newline in Hd as ->.
    split; [|right; by exists r].
    intros Hin. rewrite Heq, has_char_append in Hin.
    rewrite has_char_cons, Ascii.eqb_refl, orb_true_r in Hin. done.
  - split; [done|]. by left.
Qed.

(** ** show_history *)

Lemma show_history_from_log h : forall i p,
  only_logged p (show_history_from i h p) /\
  log (show_history_from i h p)
  = log p ++ imap (fun j l => CPrintf (S (i + j)) l) h.
Proof.
  induction h as [|l h IH]; intros i p; cbn [show_history_from].
  - simpl. rewrite app_nil_r. split; [apply only_logged_refl|done].
  - destruct (IH (S i) (emit (CPrintf (S i) l) p)) as [Ho Hl].
    split.
    + eapply only_logged_trans; [apply only_logged_emit|exact Ho].
    + rewrite Hl. unfold emit. cbn [log]. rewrite <- app_assoc.
      rewrite imap_cons. simpl. rewrite Nat.add_0_r. do 2 f_equal.
      apply imap_ext. intros j x _. simpl. f_equal. lia.
Qed.

(** X3: [show_history] prints the recorded lines in the order they were
    entered, numbered from 1, and changes nothing else; with an empty
    history it prints nothing. *)
Theorem show_history_prints p :
  only_logged p (show_history p) /\
  log (show_history p) = log p ++ imap (fun i l => CPrintf (S i) l) (history p).
Proof. apply (show_history_from_log (history p) 0 p). Qed.

(** ** expand_variables *)

Lemma buf_cat_ok b s :
  String.length b + String.length s < MAX_INPUT ->
  buf_cat b s = Ok (String.append b s).
Proof. intros H. unfold buf_cat. by case_decide. Qed.

(** Characters that are not [$] are copied one by one. *)
Lemma expand_scan_copy s1 : forall s2 buffer p,
  has_char dollar s1 = false ->
  String.length buffer + String.length s1 < MAX_INPUT ->
  expand_scan (String.append s1 s2) None buffer p
  = expand_scan s2 None (String.append buffer s1) p.
Proof.
  induction s1 as [|c s1 IH]; intros s2 buffer p Hd Hl.
  - by rewrite append_nil_s.
  - rewrite append_cons_s. rewrite has_char_cons in Hd. simpl in Hl.
    apply orb_false_iff in Hd as [Hc Hd].
    cbn [expand_scan]. rewrite Ascii.eqb_sym, Hc.
    rewrite buf_cat_ok by (simpl; lia). cbn [res_bind].
    rewrite IH; [|done|rewrite length_append_s; simpl; lia].
    by rewrite append_assoc_s.
Qed.

(** The characters of a name are collected up to the first character that
    cannot be part of one. *)
Lemma expand_scan_name name : forall rest v buffer p,
  is_name name = true ->
  expand_scan (String.append name rest) (Some v) buffer p
  = expand_scan rest (Some (String.append v name)) buffer p.
Proof.
  induction name as [|c name IH]; intros rest v buffer p Hn.
  - by rewrite append_nil_s.
  - rewrite append_cons_s. unfold is_name in Hn. simpl in Hn.
    apply andb_true_iff in Hn as [Hc Hn].
    cbn [expand_scan]. rewrite Hc, IH by done.
    by rewrite append_assoc_s.
Qed.

Lemma expand_scan_whole line p :
  has_char dollar line = false ->
  String.length line < MAX_INPUT ->
  expand_scan line None EmptyString p = Ok (line, p).
Proof.
  intros Hd Hl. rewrite <- (append_nil_s line) at 1.
  by rewrite expand_scan_copy.
Qed.

(** X4: A line without [$] comes out as it went in, and [getenv] is not
    called. *)
Theorem expand_variables_plain line p :
  has_char dollar line = false ->
  String.length line < MAX_INPUT ->
  expand_variables line p = Ok (line, p).
Proof. apply expand_scan_whole. Qed.

Lemma expand_scan_reference front name back p :
  has_char dollar front = false ->
  is_name name = true -> String.length name < 128 ->
  ends_name back = true -> has_char dollar back = false ->
  String.length front + String.length (value_of name p) + String.length back
    < MAX_INPUT ->
  expand_scan
    (String.append front (String dollar (String.append name back)))
    None EmptyString p
  = Ok (String.append front (String.append (value_of name p) back),
        emit (CGetenv name) p).
Proof.
  intros Hf Hn Hl128 He Hb Hlen.
  rewrite expand_scan_copy by (simpl; done || lia).
  cbn [expand_scan String.append]. rewrite Ascii.eqb_refl.
  rewrite expand_scan_name by done. rewrite !append_nil_l_s.
  assert (Hvar : expand_var name front p
                 = Ok (String.append front (value_of name p), emit (CGetenv name) p)).
  { unfold expand_var, value_of. case_decide; [|lia].
    destruct (env p !! name) as [val|] eqn:Ev; simpl.
    - unfold value_of in Hlen. rewrite Ev in Hlen. simpl in Hlen.
      rewrite buf_cat_ok by lia. done.
    - by rewrite append_nil_s. }
  destruct back as [|c back].
  - cbn [expand_scan]. rewrite Hvar. by rewrite append_nil_s.
  - simpl in He. apply negb_true_iff in He.
    rewrite has_char_cons in Hb. simpl in Hlen.
    apply orb_false_iff in Hb as [Hc Hb].
    cbn [expand_scan]. rewrite He, Hvar. cbn [res_bind].
    rewrite Ascii.eqb_sym, Hc.
    rewrite buf_cat_ok by (rewrite length_append_s; simpl; lia). cbn [res_bind].
    rewrite <- (append_nil_s back) at 1.
    rewrite expand_scan_copy;
      [|done|rewrite !length_append_s; simpl; lia].
    cbn [expand_scan]. by rewrite !append_assoc_s.
Qed.

(** X5: One reference [$name] in a line: the text in front of it is copied, the
    value of the variable takes the place of [$name] (nothing, when the
    variable is not set), and the text after it is copied. *)
Theorem expand_variables_one front name back p :
  has_char dollar front = false ->
  is_name name = true -> String.length name < 128 ->
  ends_name back = true -> has_char dollar back = false ->
  String.length front + String.length (value_of name p) + String.length back
    < MAX_INPUT ->
  expand_variables
    (String.append front (String dollar (String.append name back))) p
  = Ok (String.append front (String.append (value_of name p) back),
        emit (CGetenv name) p).
Proof. apply expand_scan_reference. Qed.

Lemma only_getenv_refl p : only_getenv p p.
Proof. repeat split. exists []. by rewrite app_nil_r. Qed.

Lemma only_getenv_step v p q :
  only_getenv (emit (CGetenv v) p) q -> only_getenv p q.
Proof.
  intros (F & C & E & H & names & L). repeat split; try done.
  exists (v :: names). rewrite L. cbn. by rewrite <- app_assoc.
Qed.

(** Whatever the line, an expansion that does not run over a buffer hands
    back a text that fits [line] again, and all it asks of the system is
    [getenv]. *)
Lemma expand_scan_fits s : forall var buffer p line' p',
  String.length buffer < MAX_INPUT ->
  expand_scan s var buffer p = Ok (line', p') ->
  String.length line' < MAX_INPUT /\ only_getenv p p'.
Proof.
  assert (Hvar : forall v buffer p b p',
    String.length buffer < MAX_INPUT ->
    expand_var v buffer p = Ok (b, p') ->
    String.length b < MAX_INPUT /\ p' = emit (CGetenv v) p).
  { intros v buffer p b p' Hb. unfold expand_var. case_decide; [|done].
    destruct (env p !! v) as [val|]; simpl.
    - unfold buf_cat. case_decide; [|done]. simpl. intros [= <- <-].
      rewrite length_append_s. done.
    - by intros [= <- <-]. }
  assert (Hcat : forall b c b', buf_cat b (String c EmptyString) = Ok b' ->
                                String.length b' < MAX_INPUT).
  { intros b c b'. unfold buf_cat. case_decide; [|done]. intros [= <-].
    rewrite length_append_s. done. }
  assert (Hemit : forall v p q (n : nat),
    (n < MAX_INPUT /\ only_getenv (emit (CGetenv v) p) q) ->
    n < MAX_INPUT /\ only_getenv p q).
  { intros v p q n [Hl Ho]. split; [done|]. by apply (only_getenv_step v). }
  induction s as [|c s IH]; intros var buffer p line' p' Hb; cbn [expand_scan].
  - destruct var as [v|].
    + intros E. destruct (Hvar _ _ _ _ _ Hb E) as [Hl ->].
      apply (Hemit v). split; [done|]. apply only_getenv_refl.
    + intros [= <- <-]. split; [done|]. apply only_getenv_refl.
  - destruct var as [v|].
    + destruct (is_name_char c); [by apply IH|].
      destruct (expand_var v buffer p) as [[b q]|] eqn:E; [|done].
      destruct (Hvar _ _ _ _ _ Hb E) as [Hl ->]. cbn [res_bind].
      destruct (Ascii.eqb c dollar).
      * intros E2. apply (Hemit v). by apply (IH _ _ _ _ _ Hl E2).
      * destruct (buf_cat b _) as [b'|] eqn:Ec; [|done]. cbn [res_bind].
        intros E2. apply (Hemit v). by apply (IH _ _ _ _ _ (Hcat _ _ _ Ec) E2).
    + destruct (Ascii.eqb c dollar); [by apply IH|].
      destruct (buf_cat buffer _) as [b'|] eqn:Ec; [|done]. cbn [res_bind].
      intros E2. by apply (IH _ _ _ _ _ (Hcat _ _ _ Ec) E2).
Qed.

(** X6: [strcpy(line, buffer)] at the end of [expand_variables] stays inside
    [line]: an expansion that does not overrun [buffer] or [var] yields
    fewer than MAX_INPUT characters.  All it asks of the system is
    [getenv]: the log grows by calls of [getenv] alone, and descriptors,
    children, environment and history are as before. *)
Theorem expand_variables_fits line p line' p' :
  expand_variables line p = Ok (line', p') ->
  String.length line' < MAX_INPUT /\
  fds p' = fds p /\ children p' = children p /\
  env p' = env p /\ history p' = history p /\
  exists names, log p' = log p ++ (CGetenv <$> names).
Proof.
  unfold expand_variables. apply expand_scan_fits. vm_compute; lia.
Qed.

(** X7: Names of 128 characters or more, and values that do not fit, run over
    [var] and [buffer]: nothing in [expand_variables] checks a length. *)
Theorem expand_variables_overrun front name back p :
  has_char dollar front = false ->
  String.length front < MAX_INPUT ->
  is_name name = true -> ends_name back = true ->
  128 <= String.length name \/
  MAX_INPUT <= String.length front + String.length (value_of name p) ->
  expand_variables
    (String.append front (String dollar (String.append name back))) p
  = Fault BufferOverflow.
Proof.
  intros Hf Hfl Hn He Hbig. unfold expand_variables.
  rewrite expand_scan_copy by (simpl; done || lia).
  cbn [expand_scan]. rewrite Ascii.eqb_refl.
  rewrite expand_scan_name by done. rewrite !append_nil_l_s.
  assert (Hvar : expand_var name front p = Fault BufferOverflow).
  { unfold expand_var, value_of in *. case_decide; [|done].
    destruct Hbig as [?|Hbig]; [lia|].
    destruct (env p !! name) as [val|] eqn:Ev; simpl in *; [|lia].
    unfold buf_cat. case_decide; [lia|done]. }
  destruct back as [|c back]; cbn [expand_scan].
  - exact Hvar.
  - simpl in He. apply negb_true_iff in He. by rewrite He, Hvar.
Qed.

(** ** The loop body for a single command *)

Lemma last_snoc_take (toks : list string) x :
  last toks = Some x -> toks = take (length toks - 1) toks ++ [x].
Proof.
  intros H. apply last_Some in H as [l ->].
  rewrite length_app. simpl.
  replace (length l + 1 - 1) with (length l) by lia.
  by rewrite take_app_length.
Qed.

(** The body from [parse_args] on, for a line of fewer than MAX_ARGS words:
    the [&] test amounts to looking at the last word. *)
Lemma run_simple_eq W line p :
  length (words line) < MAX_ARGS ->
  run_simple W line p
  = let bg := background_of (words line) in
    let args := args_of (words line) in
    let? b := handle_builtin W args p in
    match b with
    | Some (c, p') => Ok (c, bg, p')
    | None =>
        let '(pid, p1) := sys_fork (Some line) (simple_child W args) p in
        Ok (Next, bg, if bg then p1 else sys_waitpid pid p1)
    end.
Proof.
  intros Hshort. unfold run_simple.
  destruct (parse_args (Some line) EmptyString) as [cells sv] eqn:E.
  pose proof (parse_args_short line EmptyString Hshort) as Hcells.
  rewrite E in Hcells. simpl in Hcells. subst cells.
  rewrite (count_args_cells (words line) []). cbn [res_bind].
  assert (Hflag :
    bool_decide (0 < length (words line))
    && bool_decide (((Some <$> words line) ++ [None]) !! (length (words line) - 1)
                    = Some (Some "&"))
    = background_of (words line)).
  { unfold background_of.
    destruct (words line) as [|x l _] using rev_ind; [done|].
    rewrite length_app, last_snoc. simpl.
    replace (length l + 1 - 1) with (length l) by lia.
    rewrite fmap_app, <- app_assoc. simpl.
    rewrite (list_lookup_middle (Some <$> l) [None] (Some x) (length l))
      by (by rewrite length_fmap).
    rewrite (bool_decide_eq_true_2 (0 < length l + 1)) by lia. simpl.
    apply bool_decide_ext. split; congruence. }
  rewrite Hflag.
  assert (Hargs :
    (if background_of (words line)
     then <[length (words line) - 1 := None]> ((Some <$> words line) ++ [None])
     else (Some <$> words line) ++ [None])
    = args_of (words line)).
  { unfold args_of, plain_words.
    destruct (background_of (words line)) eqn:Eb; [|done].
    unfold background_of in Eb. apply bool_decide_eq_true in Eb.
    pose proof (last_snoc_take _ _ Eb) as Hsplit.
    set (l := take (length (words line) - 1) (words line)) in *.
    rewrite Hsplit at 2. rewrite fmap_app, <- app_assoc. simpl.
    assert (Hl : length (words line) - 1 = length (Some <$> l : list ptr) + 0).
    { rewrite length_fmap. subst l. rewrite length_take. lia. }
    rewrite Hl, insert_app_r. done. }
  rewrite Hargs. done.
Qed.

(** For a line of the kind described by [simple_line] the whole iteration
    is: record the line, then run it as a single command. *)
Lemma shell_body_simple W input p :
  simple_line input ->
  shell_body W input p
  = let line := trim_newline input in
    let? (c, _, p') := run_simple W line (add_history line p) in Ok (c, p').
Proof.
  intros (Hne & Hlen & Hd & Hb). unfold shell_body.
  case_decide as Hz.
  { destruct (trim_newline input); [done|simpl in Hz; lia]. }
  unfold expand_variables. rewrite expand_scan_whole by done.
  cbn [res_bind]. by rewrite Hb.
Qed.

Lemma args_of_head (toks : list string) (tail : list ptr) :
  ((Some <$> toks) ++ None :: tail) !! 0 = Some (head toks).
Proof. by destruct toks. Qed.

Lemma args_of_second (t : string) (toks : list string) (tail : list ptr) :
  ((Some <$> t :: toks) ++ None :: tail) !! 1 = Some (head toks).
Proof. by destruct toks. Qed.

Lemma args_of_cells toks :
  exists tail, args_of toks = (Some <$> plain_words toks) ++ None :: tail.
Proof.
  unfold args_of. destruct (background_of toks); by eexists.
Qed.

(** [handle_builtin] always finds the cells it reads. *)
Lemma handle_builtin_total W toks p :
  exists b, handle_builtin W (args_of toks) p = Ok b.
Proof.
  destruct (args_of_cells toks) as [tail ->]. unfold handle_builtin.
  rewrite args_of_head.
  destruct (plain_words toks) as [|a0 rest]; cbn [head]; [by eexists|].
  rewrite args_of_second.
  destruct (String.eqb a0 "exit"); [by eexists|].
  destruct (String.eqb a0 "cd").
  { destruct (head rest); [|destruct (sys_chdir _ _ _)]; try by eexists.
    destruct (sys_chdir _ _ _). by eexists. }
  destruct (String.eqb a0 "history"); [by eexists|].
  destruct (String.eqb a0 "export"); [|by eexists].
  destruct (head rest); [|by eexists].
  destruct (strtok (Some _) _ _) as [k sv], (strtok None _ _) as [v ?].
  destruct k, v; by eexists.
Qed.

(** Whether [handle_builtin] takes the command is a matter of its first
    word alone. *)
Lemma handle_builtin_by_name W a0 (next : ptr) p :
  if is_builtin a0
  then exists c p', handle_builtin W [Some a0; next] p = Ok (Some (c, p'))
  else handle_builtin W [Some a0; next] p = Ok None.
Proof.
  unfold is_builtin, handle_builtin. cbn [lookup list_lookup].
  destruct (String.eqb a0 "exit"); [by eexists _, _|].
  destruct (String.eqb a0 "cd"); cbn [orb].
  { destruct next; destruct (sys_chdir _ _ _); by eexists _, _. }
  destruct (String.eqb a0 "history"); [by eexists _, _|].
  destruct (String.eqb a0 "export"); cbn [orb]; [|done].
  destruct next; [|by eexists _, _].
  destruct (strtok (Some _) _ _) as [k sv], (strtok None _ _) as [v ?].
  destruct k, v; by eexists _, _.
Qed.

Lemma count_tag_printf (g : nat -> nat) h :
  count_tag TFork (imap (fun j l => CPrintf (g j) l) h) = 0.
Proof.
  revert g. induction h as [|l h IH]; intros g; [done|].
  rewrite imap_cons. unfold count_tag in *. cbn. apply (IH (g ∘ S)).
Qed.

(** A built-in makes calls of its own and forks nothing. *)
Lemma handle_builtin_calls W args p c p' :
  handle_builtin W args p = Ok (Some (c, p')) ->
  exists new, log p' = log p ++ new /\ count_tag TFork new = 0.
Proof.
  assert (Hnone : exists new, log p = log p ++ new /\ count_tag TFork new = 0)
    by (exists []; by rewrite app_nil_r).
  assert (Hsome : forall q new, count_tag TFork new = 0 -> log q = log p ++ new ->
            exists new, log q = log p ++ new /\ count_tag TFork new = 0)
    by (intros q new H0 Hl; by exists new).
  unfold handle_builtin.
  destruct (args !! 0) as [[a0|]|]; [|by intros [= <- <-]|done].
  destruct (String.eqb a0 "exit"); [by intros [= <- <-]|].
  destruct (String.eqb a0 "cd").
  { destruct (args !! 1) as [[dir|]|]; [| |done].
    - unfold sys_chdir. destruct (chdir_ok W (log p) dir).
      + rewrite bool_decide_eq_true_2 by done. intros [= <- <-].
        by apply (Hsome _ [CChdir (Some dir) 0]).
      + rewrite bool_decide_eq_false_2 by done. intros [= <- <-].
        apply (Hsome _ [CChdir (Some dir) (-1); CPerror "cd"]); [done|].
        unfold sys_perror, emit. cbn [log]. by rewrite <- app_assoc.
    - unfold sys_chdir. destruct (env p !! "HOME") as [home|].
      + destruct (chdir_ok W _ home); intros [= <- <-].
        * apply (Hsome _ [CGetenv "HOME"; CChdir (Some home) 0]); [done|].
          unfold emit. cbn [log]. by rewrite <- app_assoc.
        * apply (Hsome _ [CGetenv "HOME"; CChdir (Some home) (-1)]); [done|].
          unfold emit. cbn [log]. by rewrite <- app_assoc.
      + intros [= <- <-].
        apply (Hsome _ [CGetenv "HOME"; CChdir None (-1)]); [done|].
        unfold emit. cbn [log]. by rewrite <- app_assoc. }
  destruct (String.eqb a0 "history").
  { intros [= <- <-].
    destruct (show_history_from_log (history p) 0 p) as [_ Hl].
    eapply Hsome; [|exact Hl]. apply (count_tag_printf (fun j => S (0 + j))). }
  destruct (String.eqb a0 "export"); [|done].
  destruct (args !! 1) as [[kv|]|]; [|by intros [= <- <-]|done].
  destruct (strtok (Some kv) _ _) as [k sv], (strtok None _ _) as [v ?].
  destruct k as [k|], v as [v|]; intros [= <- <-]; try done.
  by apply (Hsome _ [CSetenv k v]).
Qed.

Lemma argv_of_erase_cells toks (cells : list ptr) :
  argv_of (erase toks ++ None :: cells) = Ok (before_redirection toks).
Proof.
  induction toks as [|t rest IH]; simpl; [done|].
  destruct (is_redir t); simpl; [done|].
  by rewrite IH.
Qed.

(** The program a child is started with never gets more than the words in
    front of the first redirection token. *)
Lemma run_command_argv W toks (cells : list ptr) c file argv tbl :
  (run_command W ((Some <$> toks) ++ None :: cells) c).1 = Runs file argv tbl ->
  argv = before_redirection toks.
Proof.
  unfold run_command. rewrite handle_redirection_run_tail.
  unfold exec_or_exit. rewrite argv_of_erase_cells.
  destruct ((erase toks ++ None :: cells) !! 0) as [[a|]|]; [|done|done].
  destruct (exec_ok _ _ _ _); [|done]. by intros [= _ <- _].
Qed.

(** X8: A line of fewer than MAX_ARGS words is always run to the end, and it
    is taken as a background command exactly when its last word is [&].
    A built-in forks nothing.  Any other command is forked once; the
    program it starts gets the words in front of the first redirection
    token, the closing [&] never among them, whereas a [&] glued to a word
    is not a closing [&] and stays in its word; and the fork is followed
    by a [waitpid] for that child exactly when the line is not a
    background command. *)
Theorem run_simple_background_flag W line p :
  length (words line) < MAX_ARGS ->
  let bg := background_of (words line) in
  let pid := next_pid p in
  exists c p' new,
    run_simple W line p = Ok (c, bg, p') /\
    log p' = log p ++ new /\
    match plain_words (words line) with
    | [] => new = []
    | a0 :: _ =>
        if is_builtin a0 then count_tag TFork new = 0
        else
          exists clog f,
            new = CFork pid (Some line) clog f
                  :: (if bg then []
                      else [CWaitpid (Z.of_nat pid) (Z.of_nat pid)]) /\
            forall file argv tbl,
              f = Runs file argv tbl ->
              argv = before_redirection (plain_words (words line))
    end.
Proof.
  intros Hshort bg pid. rewrite run_simple_eq by done. cbn zeta. fold bg.
  destruct (args_of_cells (words line)) as [cells Hcells]. rewrite Hcells.
  destruct (plain_words (words line)) as [|a0 rest] eqn:Epw.
  { exists Next, p, []. by rewrite app_nil_r. }
  assert (Hb : handle_builtin W ((Some <$> a0 :: rest) ++ None :: cells) p
               = handle_builtin W [Some a0; head rest] p).
  { unfold handle_builtin. by rewrite args_of_head, args_of_second. }
  rewrite Hb. pose proof (handle_builtin_by_name W a0 (head rest) p) as Hn.
  destruct (is_builtin a0).
  - destruct Hn as (c & p' & E). rewrite E. cbn [res_bind].
    destruct (handle_builtin_calls _ _ _ _ _ E) as (new & Hl & H0).
    by exists c, p', new.
  - rewrite Hn. cbn [res_bind].
    pose proof (run_command_argv W (a0 :: rest) cells
                  (Proc (fds p) [] (S (next_pid p)) (next_pipe p) (env p)
                        (history p) [])) as Hargv.
    unfold sys_fork, simple_child.
    destruct (run_command W _ _) as [f clog]. cbn [fst] in Hargv.
    fold pid.
    assert (Hin : bool_decide (pid ∈ children p ++ [pid]) = true).
    { apply bool_decide_eq_true_2, elem_of_app. right.
      by apply list_elem_of_singleton. }
    destruct bg; unfold sys_waitpid; proc_simpl; rewrite ?Hin; proc_simpl;
      eexists Next, _, _; (split; [done|]); cbn [log];
      rewrite <- ?app_assoc; (split; [done|]); exists clog, f; by split.
Qed.

(** [handle_builtin] reads [args[0]] and [args[1]] only. *)
Lemma handle_builtin_args W toks a0 rest p :
  plain_words toks = a0 :: rest ->
  handle_builtin W (args_of toks) p = handle_builtin W [Some a0; head rest] p.
Proof.
  intros Hpw. destruct (args_of_cells toks) as [tail ->]. rewrite Hpw.
  unfold handle_builtin. rewrite args_of_head, args_of_second. done.
Qed.

(** The single-command body when the first word, the closing [&] apart, is
    [a0]. *)
Lemma shell_body_first_word W input p a0 rest :
  simple_line input ->
  length (words (trim_newline input)) < MAX_ARGS ->
  plain_words (words (trim_newline input)) = a0 :: rest ->
  shell_body W input p
  = let line := trim_newline input in
    let q := add_history line p in
    let bg := background_of (words line) in
    let? b := handle_builtin W [Some a0; head rest] q in
    match b with
    | Some (c, p') => Ok (c, p')
    | None =>
        let '(pid, p1) := sys_fork (Some line) (simple_child W (args_of (words line))) q in
        Ok (Next, if bg then p1 else sys_waitpid pid p1)
    end.
Proof.
  intros Hs Hshort Hpw. rewrite shell_body_simple by done. cbn zeta.
  rewrite run_simple_eq by done. cbn zeta.
  rewrite (handle_builtin_args _ _ _ _ _ Hpw).
  destruct (handle_builtin _ _ _) as [[[c p']|]|]; cbn [res_bind]; try done.
  by destruct (sys_fork _ _ _).
Qed.

(** X9: A line of spaces only is recorded in the history and runs nothing:
    [handle_builtin] answers for the empty command. *)
Theorem shell_body_blank_line W input p :
  simple_line input ->
  words (trim_newline input) = [] ->
  shell_body W input p = Ok (Next, add_history (trim_newline input) p).
Proof.
  intros Hs Hw. rewrite shell_body_simple by done. cbn zeta.
  rewrite run_simple_eq by (rewrite Hw; simpl; unfold MAX_ARGS; lia).
  rewrite Hw. done.
Qed.


(** X11: [history] prints the list with the line just entered as its last
    entry, since the line is recorded before it is run. *)
Theorem shell_body_history W input p rest :
  simple_line input ->
  length (words (trim_newline input)) < MAX_ARGS ->
  plain_words (words (trim_newline input)) = "history" :: rest ->
  length (history p) < MAX_HISTORY ->
  exists p',
    shell_body W input p = Ok (Next, p') /\
    history p' = history p ++ [trim_newline input] /\
    log p' = log p ++ imap (fun i l => CPrintf (S i) l)
                          (history p ++ [trim_newline input]) /\
    fds p' = fds p /\ children p' = children p /\ env p' = env p.
Proof.
  intros Hs Hshort Hpw Hroom.
  rewrite (shell_body_first_word _ _ _ _ _ Hs Hshort Hpw). cbn.
  set (q := add_history (trim_newline input) p).
  assert (Hq : history q = history p ++ [trim_newline input] /\ log q = log p /\
               fds q = fds p /\ children q = children p /\ env q = env p).
  { subst q. unfold add_history. by case_decide. }
  destruct Hq as (Hh & Hl & Hf & Hc & He).
  destruct (show_history_from_log (history q) 0 q) as [(Hf' & Hc' & He' & Hh' & _) Hlog].
  fold (show_history q) in Hf', Hc', He', Hh', Hlog.
  exists (show_history q). split; [done|].
  rewrite Hh', Hlog, Hh, Hl, Hf', Hc', He'. done.
Qed.


(** ** export *)


Lemma fields_cut c k r :
  has_char c k = false ->
  fields (String c EmptyString) (String.append k (String c r))
  = k :: fields (String c EmptyString) r.
Proof.
  induction k as [|x k IH]; intros Hk.
  - rewrite append_nil_l_s. cbn [fields]. unfold is_delim. simpl.
    by rewrite Ascii.eqb_refl.
  - rewrite has_char_cons in Hk. apply orb_false_iff in Hk as [Hx Hk].
    rewrite append_cons_s. cbn [fields]. unfold is_delim. simpl.
    rewrite Ascii.eqb_sym, Hx. simpl. by rewrite IH.
Qed.

Lemma fields_whole c v :
  has_char c v = false -> fields (String c EmptyString) v = [v].
Proof.
  induction v as [|x v IH]; intros Hv; [done|].
  rewrite has_char_cons in Hv. apply orb_false_iff in Hv as [Hx Hv].
  cbn [fields]. unfold is_delim. simpl.
  rewrite Ascii.eqb_sym, Hx. simpl. by rewrite IH.
Qed.

Lemma is_name_has_char c k :
  is_name k = true -> is_name_char c = false -> has_char c k = false.
Proof.
  unfold is_name. intros Hk Hc.
  induction k as [|x k IH]; [done|].
  simpl in Hk. apply andb_true_iff in Hk as [Hx Hk].
  rewrite has_char_cons, IH by done. rewrite orb_false_r.
  destruct (Ascii.eqb c x) eqn:E; [|done].
  apply Ascii.eqb_eq in E as ->. congruence.
Qed.

(** X14: What is exported is what a later [$name] stands for: after
    [export name=value], with a value free of [=], a reference to the name
    is replaced by exactly that value. *)
Theorem export_then_expand W k v more front back p :
  is_name k = true -> k <> EmptyString -> String.length k < 128 ->
  v <> EmptyString -> has_char "=" v = false ->
  has_char dollar front = false ->
  ends_name back = true -> has_char dollar back = false ->
  String.length front + String.length v + String.length back < MAX_INPUT ->
  exists p1,
    handle_builtin W
      (Some "export" :: Some (String.append k (String "=" v)) :: more) p
    = Ok (Some (Next, p1)) /\
    env p1 = <[k := v]> (env p) /\
    expand_variables
      (String.append front (String dollar (String.append k back))) p1
    = Ok (String.append front (String.append v back), emit (CGetenv k) p1).
Proof.
  intros Hk Hkne Hklen Hvne Hv Hf He Hb Hlen.
  assert (Htok : tokens "=" (String.append k (String "=" v)) = [k; v]).
  { unfold tokens. rewrite fields_cut by (by apply is_name_has_char).
    rewrite fields_whole by done. by destruct k, v. }
  unfold handle_builtin. cbn [lookup list_lookup].
  change (String.eqb "export" "exit") with false.
  change (String.eqb "export" "cd") with false.
  change (String.eqb "export" "history") with false.
  change (String.eqb "export" "export") with true. cbn iota.
  destruct (strtok (Some _) "=" EmptyString) as [key save] eqn:E1.
  destruct (strtok None "=" save) as [val sv] eqn:E2.
  apply strtok_first in E1 as [-> Hrest]. apply strtok_next in E2 as [-> _].
  rewrite Hrest, Htok. cbn [head tail].
  eexists. split; [done|]. split; [done|].
  unfold expand_variables. rewrite expand_scan_reference; try done.
  - unfold value_of. cbn [env emit with_env]. by rewrite lookup_insert_eq.
  - unfold value_of. cbn [env emit with_env]. by rewrite lookup_insert_eq.
Qed.

(** ** A command that is not a built-in *)

Lemma erase_plain toks : no_redirection toks = true -> erase toks = Some <$> toks.
Proof.
  unfold erase, no_redirection. induction toks as [|t rest IH]; [done|].
  cbn [forallb]. rewrite !fmap_cons.
  intros [Ht Hr]%andb_true_iff. apply negb_true_iff in Ht.
  by rewrite Ht, IH.
Qed.

Lemma redirect_all_plain W toks p :
  no_redirection toks = true -> redirect_all W toks p = p.
Proof.
  induction toks as [|t rest IH]; [done|]. simpl.
  intros [Ht Hr]%andb_true_iff. apply negb_true_iff in Ht.
  unfold is_redir in Ht. destruct (redir_of t); [done|]. by apply IH.
Qed.

Lemma argv_of_cells toks (rest : list ptr) :
  argv_of ((Some <$> toks) ++ None :: rest) = Ok toks.
Proof. induction toks as [|t toks IH]; csimpl; [done|]. by rewrite IH. Qed.

(** Without a redirection token the child makes no call of its own before
    [execvp], and the program gets every word. *)
Lemma run_command_plain W a0 rest (cells : list ptr) c :
  no_redirection (a0 :: rest) = true ->
  run_command W ((Some <$> a0 :: rest) ++ None :: cells) c
  = if exec_ok W (log c) a0 (a0 :: rest)
    then (Runs a0 (a0 :: rest) (fds c), log c)
    else (Exits 1, log c ++ [CExecvp a0 (a0 :: rest); CPerror "exec"]).
Proof.
  intros Hno. unfold run_command.
  rewrite handle_redirection_run_tail, erase_plain, redirect_all_plain by done.
  unfold exec_or_exit. rewrite argv_of_cells.
  cbn [fmap list_fmap app lookup list_lookup].
  destruct (exec_ok W (log c) a0 (a0 :: rest)); [done|].
  unfold sys_perror, emit. cbn [log]. by rewrite <- app_assoc.
Qed.

Lemma handle_builtin_other W a0 next p :
  is_builtin a0 = false -> handle_builtin W [Some a0; next] p = Ok None.
Proof.
  unfold is_builtin. intros H.
  apply orb_false_iff in H as [H H4]. apply orb_false_iff in H as [H H3].
  apply orb_false_iff in H as [H1 H2].
  unfold handle_builtin. cbn [lookup list_lookup]. by rewrite H1, H2, H3, H4.
Qed.

Lemma add_history_frame line p :
  fds (add_history line p) = fds p /\ children (add_history line p) = children p /\
  env (add_history line p) = env p /\ log (add_history line p) = log p /\
  next_pid (add_history line p) = next_pid p /\
  next_pipe (add_history line p) = next_pipe p.
Proof. unfold add_history. by case_decide. Qed.

Lemma filter_other_snoc pid (l : list nat) :
  List.filter (fun c => negb (Nat.eqb c pid)) (l ++ [pid])
  = List.filter (fun c => negb (Nat.eqb c pid)) l.
Proof.
  rewrite List.filter_app. simpl. rewrite Nat.eqb_refl. simpl.
  by rewrite app_nil_r.
Qed.

(** X15: A command without redirection that is not a built-in: one child is
    forked, and it asks [execvp] for the first word with the words of the
    line as arguments, a closing [&] left out, on the shell's own
    descriptors.  Without [&] the shell waits for that very child before it
    goes on; with [&] it does not wait and the child stays on its list.
    When the program cannot be started the child reports [exec] and exits
    with status 1; the shell goes on all the same. *)
Theorem shell_body_command W input p a0 rest :
  simple_line input ->
  length (words (trim_newline input)) < MAX_ARGS ->
  plain_words (words (trim_newline input)) = a0 :: rest ->
  is_builtin a0 = false ->
  no_redirection (a0 :: rest) = true ->
  let pid := next_pid p in
  let bg := background_of (words (trim_newline input)) in
  let started := exec_ok W [] a0 (a0 :: rest) in
  exists p',
    shell_body W input p = Ok (Next, p') /\
    fds p' = fds p /\ env p' = env p /\
    children p'
    = (if bg then children p ++ [pid]
       else List.filter (fun c => negb (Nat.eqb c pid)) (children p)) /\
    log p'
    = log p ++
      CFork pid (Some (trim_newline input))
        (if started then [] else [CExecvp a0 (a0 :: rest); CPerror "exec"])
        (if started then Runs a0 (a0 :: rest) (fds p) else Exits 1)
      :: (if bg then [] else [CWaitpid (Z.of_nat pid) (Z.of_nat pid)]).
Proof.
  intros Hs Hshort Hpw Hnb Hno pid bg started.
  rewrite (shell_body_first_word _ _ _ _ _ Hs Hshort Hpw).
  cbn zeta. rewrite handle_builtin_other by done. cbn [res_bind].
  destruct (add_history_frame (trim_newline input) p)
    as (Hf & Hc & He & Hl & Hn & Hk).
  set (q := add_history (trim_newline input) p) in *.
  destruct (args_of_cells (words (trim_newline input))) as [cells ->].
  rewrite Hpw. fold bg.
  unfold sys_fork, simple_child. rewrite run_command_plain by done.
  cbn [log fds]. rewrite Hn, Hf. fold pid. fold started.
  assert (Hin : bool_decide (pid ∈ children q ++ [pid]) = true).
  { apply bool_decide_eq_true_2, elem_of_app. right.
    by apply list_elem_of_singleton. }
  destruct bg, started; cbn [app]; unfold sys_waitpid; proc_simpl;
    rewrite ?Hin; proc_simpl; eexists; (split; [done|]);
    cbn [fds env children log];
    rewrite ?filter_other_snoc, Hc, Hl, <- ?app_assoc; done.
Qed.

(** ** More words than [args] has cells *)

Lemma count_args_open toks : count_args (Some <$> toks) = Fault OutOfBounds.
Proof. induction toks as [|t toks IH]; csimpl; [done|]. by rewrite IH. Qed.

(** X16: A single command of MAX_ARGS words or more fills [args] without a
    closing NULL, and the [&] test of the loop then reads past the array:
    nothing bounds the number of words on a line. *)
Theorem shell_body_too_many_words W input p :
  simple_line input ->
  MAX_ARGS <= length (words (trim_newline input)) ->
  shell_body W input p = Fault OutOfBounds.
Proof.
  intros Hs Hmany. rewrite shell_body_simple by done. cbn zeta.
  unfold run_simple.
  destruct (parse_args (Some (trim_newline input)) EmptyString) as [cells sv] eqn:E.
  pose proof (parse_args_cells (trim_newline input) EmptyString) as Hcells.
  rewrite E in Hcells. cbn [fst] in Hcells. subst cells.
  case_decide; [unfold words in Hmany; lia|].
  by rewrite app_nil_r, count_args_open.
Qed.

(** ** What a single command leaves behind in the shell *)





(** ** The history over a whole session *)








(** ** How the stages of a pipeline are connected *)

Section Wiring.
Variable W : world.
Hypothesis starts : forall l f a, exec_ok W l f a = true.











End Wiring.

(** X20: A stage without a word, as the second one of [ls | | wc] or the last
    one of [ls | ]: its child, inside the loop or after it, has NULL in
    [args[0]] and hands it to [execvp] as the file to run.  Only the
    single-command path goes through [handle_builtin], which is where an
    empty command is caught. *)
Theorem pipeline_blank_stage W in_fd r w s save c :
  words s = [] ->
  (stage_child W in_fd r w (Some s) save c).1 = Faults NullDeref /\
  (last_child W in_fd (parse_args (Some s) save).1 c).1 = Faults NullDeref.
Proof.
  intros Hw.
  assert (Hargs : (parse_args (Some s) save).1 = [None]).
  { rewrite parse_args_short by (rewrite Hw; cbn; unfold MAX_ARGS; lia).
    by rewrite Hw. }
  assert (Hrun : forall q, (run_command W [None] q).1 = Faults NullDeref).
  { intros q. unfold run_command.
    change [None] with ((Some <$> []) ++ [@None string]).
    by rewrite handle_redirection_run. }
  split.
  - unfold stage_child. destruct (parse_args (Some s) save) as [args sv].
    cbn [fst] in Hargs. subst args. apply Hrun.
  - unfold last_child. rewrite Hargs. apply Hrun.
Qed.

Lemma stages_has_bar line :
  2 <= length (stages line) -> has_char bar line = true.
Proof.
  intros H. destruct (has_char bar line) eqn:E; [done|].
  unfold stages, tokens in H.
  change "|"%string with (String bar EmptyString) in H.
  rewrite fields_whole in H by done.
  cbn in H. destruct (nonempty line); cbn in H; lia.
Qed.

(** X21: A line of ten stages or more is stored past the end of
    [commands]: nothing bounds the number of stages. *)
Theorem shell_body_too_many_stages W input p :
  String.length (trim_newline input) < MAX_INPUT ->
  has_char dollar (trim_newline input) = false ->
  10 <= length (stages (trim_newline input)) ->
  shell_body W input p = Fault OutOfBounds.
Proof.
  intros Hlen Hd Hmany. unfold shell_body.
  case_decide as Hz.
  { destruct (trim_newline input); [cbn in Hmany; lia|simpl in Hz; lia]. }
  unfold expand_variables. rewrite expand_scan_whole by done. cbn [res_bind].
  rewrite stages_has_bar by lia.
  by rewrite execute_pipeline_overrun.
Qed.

(** ** The properties of the rest of the file at work on concrete lines *)

(** X1 at work: Two spaces in a row separate like one: no empty argument is stored. *)
Lemma parse_args_words_shape_witness :
  Some "-l" ∈ (parse_args (Some "ls  -l") EmptyString).1 /\
  "-l" ∈ words "ls  -l" /\ "-l" <> EmptyString /\ has_char " " "-l" = false.
Proof.
  assert (H : Some "-l" ∈ (parse_args (Some "ls  -l") EmptyString).1)
    by (vm_compute; repeat constructor).
  split; [exact H|].
  exact (parse_args_words_shape "ls  -l" EmptyString "-l" H).
Defined.

(** X4 at work. *)
Lemma expand_variables_plain_witness :
  (has_char dollar "ls -l" = false /\ String.length "ls -l" < MAX_INPUT) /\
  expand_variables "ls -l" fresh_shell = Ok ("ls -l", fresh_shell).
Proof.
  assert (H1 : has_char dollar "ls -l" = false) by reflexivity.
  assert (H2 : String.length "ls -l" < MAX_INPUT) by (vm_compute; lia).
  split; [exact (conj H1 H2)|].
  exact (expand_variables_plain "ls -l" fresh_shell H1 H2).
Defined.

(** X5 at work: [ls $HOME/bin] with [HOME=/root]. *)
Lemma expand_variables_one_witness :
  expand_variables "ls $HOME/bin" home_shell
  = Ok (String.append "ls " (String.append (value_of "HOME" home_shell) "/bin"),
        emit (CGetenv "HOME") home_shell).
Proof.
  assert (H1 : has_char dollar "ls " = false) by reflexivity.
  assert (H2 : is_name "HOME" = true) by reflexivity.
  assert (H3 : String.length "HOME" < 128) by (vm_compute; lia).
  assert (H4 : ends_name "/bin" = true) by reflexivity.
  assert (H5 : has_char dollar "/bin" = false) by reflexivity.
  assert (H6 : String.length "ls " + String.length (value_of "HOME" home_shell)
               + String.length "/bin" < MAX_INPUT) by (vm_compute; lia).
  exact (expand_variables_one "ls " "HOME" "/bin" home_shell H1 H2 H3 H4 H5 H6).
Defined.

(** X6 at work: [ls $HOME$USER] with [HOME=/root] and no [USER]. *)
Lemma expand_variables_fits_witness :
  expand_variables "ls $HOME$USER" home_shell
  = Ok ("ls /root", emit (CGetenv "USER") (emit (CGetenv "HOME") home_shell)) /\
  String.length "ls /root" < MAX_INPUT /\
  fds (emit (CGetenv "USER") (emit (CGetenv "HOME") home_shell)) = fds home_shell /\
  children (emit (CGetenv "USER") (emit (CGetenv "HOME") home_shell)) = [] /\
  env (emit (CGetenv "USER") (emit (CGetenv "HOME") home_shell)) = env home_shell /\
  history (emit (CGetenv "USER") (emit (CGetenv "HOME") home_shell)) = [] /\
  exists names,
    log (emit (CGetenv "USER") (emit (CGetenv "HOME") home_shell))
    = log home_shell ++ (CGetenv <$> names).
Proof.
  assert (H : expand_variables "ls $HOME$USER" home_shell
              = Ok ("ls /root",
                    emit (CGetenv "USER") (emit (CGetenv "HOME") home_shell)))
    by (vm_compute; reflexivity).
  split; [exact H|].
  exact (expand_variables_fits _ _ _ _ H).
Defined.

(** X7 at work: A name of 128 letters. *)
Lemma expand_variables_overrun_witness :
  expand_variables
    (String.append "ls " (String dollar (String.append (letters 128) EmptyString)))
    fresh_shell
  = Fault BufferOverflow.
Proof.
  assert (H1 : has_char dollar "ls " = false) by reflexivity.
  assert (H2 : String.length "ls " < MAX_INPUT) by (vm_compute; lia).
  assert (H3 : is_name (letters 128) = true) by (vm_compute; reflexivity).
  assert (H4 : ends_name EmptyString = true) by reflexivity.
  assert (H5 : 128 <= String.length (letters 128) \/
               MAX_INPUT <= String.length "ls "
                            + String.length (value_of (letters 128) fresh_shell))
    by (left; vm_compute; lia).
  exact (expand_variables_overrun "ls " (letters 128) EmptyString fresh_shell
           H1 H2 H3 H4 H5).
Defined.

(** X8 at work: [sleep 5 &] is a background command and [sleep] gets
    [5] alone; [sleep 5&] is not, [sleep] gets [5&] and is waited for. *)
Lemma run_simple_background_flag_witness :
  (exists c p' clog f,
     run_simple generous "sleep 5 &" fresh_shell = Ok (c, true, p') /\
     log p' = [CFork 100 (Some "sleep 5 &") clog f] /\
     forall file argv tbl, f = Runs file argv tbl -> argv = ["sleep"; "5"]) /\
  (exists c p' clog f,
     run_simple generous "sleep 5&" fresh_shell = Ok (c, false, p') /\
     log p' = [CFork 100 (Some "sleep 5&") clog f; CWaitpid 100 100] /\
     forall file argv tbl, f = Runs file argv tbl -> argv = ["sleep"; "5&"]).
Proof.
  assert (H1 : length (words "sleep 5 &") < MAX_ARGS) by (vm_compute; lia).
  assert (H2 : length (words "sleep 5&") < MAX_ARGS) by (vm_compute; lia).
  split.
  - destruct (run_simple_background_flag generous "sleep 5 &" fresh_shell H1)
      as (c & p' & new & E & Hl & Hm).
    destruct Hm as (clog & f & Hnew & Hargv). rewrite Hnew in Hl.
    exists c, p', clog, f. exact (conj E (conj Hl Hargv)).
  - destruct (run_simple_background_flag generous "sleep 5&" fresh_shell H2)
      as (c & p' & new & E & Hl & Hm).
    destruct Hm as (clog & f & Hnew & Hargv). rewrite Hnew in Hl.
    exists c, p', clog, f. exact (conj E (conj Hl Hargv)).
Defined.

(** X9 at work. *)
Lemma shell_body_blank_line_witness :
  shell_body generous "   " fresh_shell = Ok (Next, add_history "   " fresh_shell).
Proof.
  assert (H1 : simple_line "   ")
    by (repeat split; vm_compute; (discriminate || lia || reflexivity)).
  assert (H2 : words (trim_newline "   ") = []) by reflexivity.
  exact (shell_body_blank_line generous "   " fresh_shell H1 H2).
Defined.


(** X11 at work: The first [history] of a session prints itself. *)
Lemma shell_body_history_witness :
  exists p',
    shell_body generous "history" fresh_shell = Ok (Next, p') /\
    history p' = ["history"] /\
    log p' = [CPrintf 1 "history"] /\
    fds p' = std_fds /\ children p' = [] /\ env p' = ∅.
Proof.
  assert (H1 : simple_line "history")
    by (repeat split; vm_compute; (discriminate || lia || reflexivity)).
  assert (H2 : length (words (trim_newline "history")) < MAX_ARGS)
    by (vm_compute; lia).
  assert (H3 : plain_words (words (trim_newline "history")) = ["history"])
    by (vm_compute; reflexivity).
  assert (H4 : length (history fresh_shell) < MAX_HISTORY) by (vm_compute; lia).
  exact (shell_body_history generous "history" fresh_shell [] H1 H2 H3 H4).
Defined.



(** X14 at work: [export DIR=/srv] and then [ls $DIR/www]. *)
Lemma export_then_expand_witness :
  exists p1,
    handle_builtin generous [Some "export"; Some "DIR=/srv"; None] fresh_shell
    = Ok (Some (Next, p1)) /\
    env p1 = <["DIR" := "/srv"]> ∅ /\
    expand_variables "ls $DIR/www" p1
    = Ok ("ls /srv/www", emit (CGetenv "DIR") p1).
Proof.
  assert (H1 : is_name "DIR" = true) by reflexivity.
  assert (H2 : "DIR" <> EmptyString) by discriminate.
  assert (H3 : String.length "DIR" < 128) by (vm_compute; lia).
  assert (H4 : "/srv" <> EmptyString) by discriminate.
  assert (H5 : has_char "=" "/srv" = false) by reflexivity.
  assert (H6 : has_char dollar "ls " = false) by reflexivity.
  assert (H7 : ends_name "/www" = true) by reflexivity.
  assert (H8 : has_char dollar "/www" = false) by reflexivity.
  assert (H9 : String.length "ls " + String.length "/srv" + String.length "/www"
               < MAX_INPUT) by (vm_compute; lia).
  exact (export_then_expand generous "DIR" "/srv" [None] "ls " "/www" fresh_shell
           H1 H2 H3 H4 H5 H6 H7 H8 H9).
Defined.

(** X15 at work: [ls -l &]: the program gets [ls -l], and the shell does not wait. *)
Lemma shell_body_command_witness :
  exists p',
    shell_body generous "ls -l &" fresh_shell = Ok (Next, p') /\
    fds p' = std_fds /\ env p' = ∅ /\
    children p' = [100] /\
    log p' = [CFork 100 (Some "ls -l &") [] (Runs "ls" ["ls"; "-l"] std_fds)].
Proof.
  assert (H1 : simple_line "ls -l &")
    by (repeat split; vm_compute; (discriminate || lia || reflexivity)).
  assert (H2 : length (words (trim_newline "ls -l &")) < MAX_ARGS)
    by (vm_compute; lia).
  assert (H3 : plain_words (words (trim_newline "ls -l &")) = ["ls"; "-l"])
    by (vm_compute; reflexivity).
  assert (H4 : is_builtin "ls" = false) by reflexivity.
  assert (H5 : no_redirection ["ls"; "-l"] = true) by reflexivity.
  exact (shell_body_command generous "ls -l &" fresh_shell "ls" ["-l"]
           H1 H2 H3 H4 H5).
Defined.

(** X16 at work. *)
Lemma shell_body_too_many_words_witness :
  shell_body generous (many 128) fresh_shell = Fault OutOfBounds.
Proof.
  assert (H1 : simple_line (many 128))
    by (repeat split; vm_compute; (discriminate || lia || reflexivity)).
  assert (H2 : MAX_ARGS <= length (words (trim_newline (many 128))))
    by (vm_compute; lia).
  exact (shell_body_too_many_words generous (many 128) fresh_shell H1 H2).
Defined.




(** [yes|head -1] when the wait for [yes] does not return: [yes] alone is
    started, reading the shell's input and writing to pipe 0. *)
Example blocked_pipeline_streams :
  exists p',
    execute_pipeline_blocking generous stuck "yes|head -1" fresh_shell
      = Ok (Blocked, p') /\
    programs (log p') = [["yes"]] /\
    standard_streams (log p') = [(Inherited 0, PipeWrite 0)].
Proof. eexists. split; [vm_compute; reflexivity|]. by vm_compute. Qed.

(** X20 at work: The blank stage of [ls | | wc]. *)
Lemma pipeline_blank_stage_witness :
  In " " (stages "ls | | wc") /\ words " " = [] /\
  (stage_child generous 3 5 6 (Some " ") EmptyString fresh_shell).1
  = Faults NullDeref /\
  (last_child generous 3 (parse_args (Some " ") EmptyString).1 fresh_shell).1
  = Faults NullDeref.
Proof.
  assert (H0 : In " " (stages "ls | | wc")) by (vm_compute; tauto).
  assert (H : words " " = []) by reflexivity.
  split; [exact H0|]. split; [exact H|].
  exact (pipeline_blank_stage generous 3 5 6 " " EmptyString fresh_shell H).
Defined.

(** X21 at work: Ten stages. *)
Lemma shell_body_too_many_stages_witness :
  shell_body generous "a|b|c|d|e|f|g|h|i|j" fresh_shell = Fault OutOfBounds.
Proof.
  assert (H1 : String.length (trim_newline "a|b|c|d|e|f|g|h|i|j") < MAX_INPUT)
    by (vm_compute; lia).
  assert (H2 : has_char dollar (trim_newline "a|b|c|d|e|f|g|h|i|j") = false)
    by reflexivity.
  assert (H3 : 10 <= length (stages (trim_newline "a|b|c|d|e|f|g|h|i|j")))
    by (vm_compute; lia).
  exact (shell_body_too_many_stages generous "a|b|c|d|e|f|g|h|i|j" fresh_shell
           H1 H2 H3).
Defined.
